(** * Batched video generation with resilient polling (index.tsx)

    A shallow embedding of [generateVideos], [enhancePrompt],
    [displayAndDownloadVideo] and [setLoading].

    The program is an async function talking to a remote service.  Every
    [await] on the service is answered by a script: the enhancement has one
    scripted answer, every batch has a scripted answer to its submission and
    a list of scripted answers to its successive polls.  When a script is
    used up the awaited promise never settles and the run is [Pending].
    Page state (status line, results area, alerts, console) and the calls
    made to the outside world are threaded through as an explicit state. *)

From Stdlib Require Import String Ascii List ZArith Arith Bool Lia.
From Stdlib Require Import DecimalString Permutation.
Import ListNotations.

Local Open Scope string_scope.
Local Open Scope list_scope.

(** ** JavaScript values the program inspects *)

(** [String.prototype.includes]. *)
Fixpoint includes (s sub : string) : bool :=
  String.prefix sub s ||
  match s with
  | EmptyString => false
  | String _ s' => includes s' sub
  end.

(** Template-literal rendering of a non-negative integer. *)
Definition showNat (n : nat) : string :=
  NilEmpty.string_of_uint (Nat.to_uint n).

(** Rendering of an integer-valued number. *)
Definition showZ (z : Z) : string :=
  NilZero.string_of_int (Z.to_int z).

(** A thrown value: an [Error] with its message, or anything else, kept as
    what [String(error)] prints. *)
Inductive Thrown : Type :=
| ErrorObj (message : string)
| OtherThrown (text : string).

(** [error instanceof Error ? error.message : String(error)] *)
Definition errorText (e : Thrown) : string :=
  match e with
  | ErrorObj m => m
  | OtherThrown t => t
  end.

(** Line 85. *)
Definition isRateLimitError (e : Thrown) : bool :=
  match e with
  | ErrorObj m => includes m "429" || includes m "RESOURCE_EXHAUSTED"
  | OtherThrown _ => false
  end.

(** How an awaited promise settles. *)
Inductive Settled (A : Type) : Type :=
| Resolved (a : A)
| Rejected (e : Thrown).
Arguments Resolved {A} a.
Arguments Rejected {A} e.

(** The part of the SDK's operation object that the program reads:
    [done], [response?.generatedVideos], and [video?.uri] of each entry.
    A missing [done] is falsy and is modelled as [false]. *)
Record Video : Type := { uri : option string }.
Record GeneratedVideo : Type := { video : option Video }.
Record Response : Type := { generatedVideos : option (list GeneratedVideo) }.
Record Operation : Type := { done : bool; response : option Response }.

(** [operation.response?.generatedVideos] *)
Definition responseVideos (op : Operation) : option (list GeneratedVideo) :=
  match response op with
  | Some r => generatedVideos r
  | None => None
  end.

(** [v.video?.uri] *)
Definition videoUri (v : GeneratedVideo) : option string :=
  match video v with
  | Some vid => uri vid
  | None => None
  end.

(** [.filter(Boolean) as string[]]: [undefined] and the empty string are
    falsy and dropped. *)
Fixpoint filterBoolean (l : list (option string)) : list string :=
  match l with
  | [] => []
  | Some s :: l' => if (s =? "")%string then filterBoolean l' else s :: filterBoolean l'
  | None :: l' => filterBoolean l'
  end.

(** Line 106. *)
Definition batchVideoUris (vs : list GeneratedVideo) : list string :=
  filterBoolean (map videoUri vs).

(** ** The page and the outside world *)

(** Children appended to the results section. *)
Inductive Child : Type :=
| VideoContainer (src label : string)
| ErrorDiv (text : string).

(** Calls that leave the program, in the order they are made. *)
Inductive Call : Type :=
| CallEnhance (contents : string)
| CallSubmit (prompt : string) (numberOfVideos : nat)
| CallSleep (ms : Z)
| CallPoll (operation : Operation)
| CallFetch (url : string).

Record Page : Type := {
  statusMessage : string;            (* statusMessage.textContent *)
  resultsSection : list Child;       (* children of resultsSection *)
  generateButtonDisabled : bool;     (* generateButton.disabled *)
  statusSectionDisplay : string;     (* statusSection.style.display *)
  alerts : list string;              (* alert(...) *)
  consoleErrors : list string;       (* console.error(...) *)
  downloads : list (string * string);(* clicked anchors: href, download *)
  calls : list Call
}.

Definition setStatus (m : string) (s : Page) : Page :=
  {| statusMessage := m; resultsSection := resultsSection s;
     generateButtonDisabled := generateButtonDisabled s;
     statusSectionDisplay := statusSectionDisplay s;
     alerts := alerts s; consoleErrors := consoleErrors s;
     downloads := downloads s; calls := calls s |}.

Definition setResults (r : list Child) (s : Page) : Page :=
  {| statusMessage := statusMessage s; resultsSection := r;
     generateButtonDisabled := generateButtonDisabled s;
     statusSectionDisplay := statusSectionDisplay s;
     alerts := alerts s; consoleErrors := consoleErrors s;
     downloads := downloads s; calls := calls s |}.

Definition alert (m : string) (s : Page) : Page :=
  {| statusMessage := statusMessage s; resultsSection := resultsSection s;
     generateButtonDisabled := generateButtonDisabled s;
     statusSectionDisplay := statusSectionDisplay s;
     alerts := alerts s ++ [m]; consoleErrors := consoleErrors s;
     downloads := downloads s; calls := calls s |}.

Definition consoleError (m : string) (s : Page) : Page :=
  {| statusMessage := statusMessage s; resultsSection := resultsSection s;
     generateButtonDisabled := generateButtonDisabled s;
     statusSectionDisplay := statusSectionDisplay s;
     alerts := alerts s; consoleErrors := consoleErrors s ++ [m];
     downloads := downloads s; calls := calls s |}.

Definition clickDownload (href name : string) (s : Page) : Page :=
  {| statusMessage := statusMessage s; resultsSection := resultsSection s;
     generateButtonDisabled := generateButtonDisabled s;
     statusSectionDisplay := statusSectionDisplay s;
     alerts := alerts s; consoleErrors := consoleErrors s;
     downloads := downloads s ++ [(href, name)]; calls := calls s |}.

Definition call (c : Call) (s : Page) : Page :=
  {| statusMessage := statusMessage s; resultsSection := resultsSection s;
     generateButtonDisabled := generateButtonDisabled s;
     statusSectionDisplay := statusSectionDisplay s;
     alerts := alerts s; consoleErrors := consoleErrors s;
     downloads := downloads s; calls := calls s ++ [c] |}.

(** Lines 180-189. *)
Definition setLoading (isLoading : bool) (message : string) (s : Page) : Page :=
  if isLoading then
    {| statusMessage := message; resultsSection := resultsSection s;
       generateButtonDisabled := true;
       statusSectionDisplay := "flex";
       alerts := alerts s; consoleErrors := consoleErrors s;
       downloads := downloads s; calls := calls s |}
  else
    {| statusMessage := statusMessage s; resultsSection := resultsSection s;
       generateButtonDisabled := false;
       statusSectionDisplay := "none";
       alerts := alerts s; consoleErrors := consoleErrors s;
       downloads := downloads s; calls := calls s |}.

(** How a piece of the program ends: it completes with a value, throws, or
    is left waiting on a promise that the script does not settle. *)
Inductive Res (A : Type) : Type :=
| Ret (a : A)
| Threw (e : Thrown)
| Pending.
Arguments Ret {A} a.
Arguments Threw {A} e.
Arguments Pending {A}.

(** ** The poll loop (lines 56-100) *)

Definition loadingMessages : list string :=
  [ "Mixing colors and shaping scenes...";
    "The digital director is calling 'Action!'...";
    "Rendering pixels into motion...";
    "Almost there, adding the final sparkle..." ].

Definition maxPollRetries : nat := 5.
Definition basePollDelay : Z := 20000.
Definition maxPollDelay : Z := 60000.

(** Lines 87-98, the [catch] of one poll: either the next retry state
    (retries, delay, status line) or the error thrown out of the loop.
    [pollDelay / 1000] is printed with integer division: the delays that
    reach it from the base delay are 40000 and 60000 (see [backoff_values]). *)
Definition onPollFailure (error : Thrown) (pollRetries : nat) (pollDelay : Z)
  : (nat * Z * string) + Thrown :=
  if isRateLimitError error && (pollRetries <? maxPollRetries)%nat then
    let pollRetries' := S pollRetries in
    let pollDelay' := Z.min maxPollDelay (pollDelay * 2) in
    inl (pollRetries', pollDelay',
         ("Rate limit reached. Waiting " ++ showZ (pollDelay' / 1000)
            ++ "s before retrying...")%string)
  else
    inr (ErrorObj ("Polling failed after " ++ showNat pollRetries
                     ++ " retries: " ++ errorText error)%string).

(** Lines 69-75: the status line shown before a poll, unless a rate-limit
    warning is already on display. *)
Definition announcePoll (batchNumber messageIndex : nat) (s : Page) : Page :=
  let userFacingMessage :=
    ("Generating Batch " ++ showNat batchNumber ++ "... ("
       ++ nth (messageIndex mod List.length loadingMessages) loadingMessages ""
       ++ ")")%string in
  if negb (includes (statusMessage s) "Rate limit")
  then setStatus userFacingMessage s else s.

(** Lines 77-80: the wait, then the poll request on the current handle. *)
Definition sleepThenPoll (operation : Operation) (pollDelay : Z) (s : Page)
  : Page :=
  call (CallPoll operation) (call (CallSleep pollDelay) s).

(** [while (!operation.done) { ... }], one scripted answer per poll. *)
Fixpoint pollLoop (batchNumber : nat) (polls : list (Settled Operation))
    (operation : Operation) (messageIndex pollRetries : nat) (pollDelay : Z)
    (s : Page) : Page * Res Operation :=
  if done operation then (s, Ret operation) else
  let s := announcePoll batchNumber messageIndex s in
  let messageIndex := S messageIndex in
  let s := sleepThenPoll operation pollDelay s in
  match polls with
  | [] => (s, Pending)
  | Resolved operation' :: polls' =>
      pollLoop batchNumber polls' operation' messageIndex 0 basePollDelay s
  | Rejected error :: polls' =>
      match onPollFailure error pollRetries pollDelay with
      | inl (pollRetries', pollDelay', msg) =>
          pollLoop batchNumber polls' operation messageIndex
                   pollRetries' pollDelay' (setStatus msg s)
      | inr e => (s, Threw e)
      end
  end.

(** ** The batch loop (lines 34-110) *)

(** The scripted answers for one batch: how the submission settles and how
    each successive poll settles. *)
Record BatchScript : Type := {
  submission : Settled Operation;
  polls : list (Settled Operation)
}.

(** The variables of [generateVideos] that the batch loop updates. *)
Record Locals : Type := {
  allVideoUris : list string;
  videosGenerated : nat;
  batchNumber : nat
}.

Section Batching.

(** [totalVideosToGenerate] and [maxVideosPerRequest] are the constants 5
    and 2 in the source; the loop is written over any values. *)
Variables totalVideosToGenerate maxVideosPerRequest : nat.
Variable enhancedPrompt : string.

(** [Math.ceil(totalVideosToGenerate / maxVideosPerRequest)], for a
    non-zero divisor. *)
Definition batchTotal : nat :=
  (totalVideosToGenerate + maxVideosPerRequest - 1) / maxVideosPerRequest.

(** Line 42. *)
Definition videosInThisBatch (videosGenerated : nat) : nat :=
  Nat.min maxVideosPerRequest (totalVideosToGenerate - videosGenerated).

(** Lines 102-106, once the poll loop has left with [operation]. *)
Definition collectBatch (batchNumber : nat) (operation : Operation)
  : Res (list string) :=
  match responseVideos operation with
  | None | Some [] =>
      Threw (ErrorObj ("Video generation batch " ++ showNat batchNumber
                         ++ " failed to produce any videos.")%string)
  | Some vs => Ret (batchVideoUris vs)
  end.

(** Lines 44-53: the status line of a new batch and its submission. *)
Definition submitBatch (l : Locals) (s : Page) : Page :=
  call (CallSubmit enhancedPrompt (videosInThisBatch (videosGenerated l)))
       (setStatus ("Generating Batch " ++ showNat (batchNumber l)
                     ++ " of " ++ showNat batchTotal
                     ++ "... This may take a few minutes.")%string s).

(** Lines 42-106: one pass through the body of the outer loop, up to the
    computation of [batchVideoUris]. *)
Definition runBatch (l : Locals) (script : option BatchScript) (s : Page)
  : Page * Res (list string) :=
  let s := submitBatch l s in
  match script with
  | None => (s, Pending)
  | Some b =>
      match submission b with
      | Rejected e => (s, Threw e)
      | Resolved operation =>
          match pollLoop (batchNumber l) (polls b) operation 0 0
                         basePollDelay s with
          | (s, Ret operation) => (s, collectBatch (batchNumber l) operation)
          | (s, Threw e) => (s, Threw e)
          | (s, Pending) => (s, Pending)
          end
      end
  end.

(** Lines 107-109. *)
Definition pushBatch (l : Locals) (uris : list string) : Locals :=
  {| allVideoUris := allVideoUris l ++ uris;
     videosGenerated := videosGenerated l + List.length uris;
     batchNumber := S (batchNumber l) |}.

(** [while (videosGenerated < totalVideosToGenerate) { ... }].  The
    variables are returned however the loop ends. *)
Fixpoint batchLoop (scripts : list BatchScript) (l : Locals) (s : Page)
  : Page * Locals * Res unit :=
  if (videosGenerated l <? totalVideosToGenerate)%nat then
    match scripts with
    | [] => (fst (runBatch l None s), l, Pending)
    | b :: scripts' =>
        match runBatch l (Some b) s with
        | (s, Ret uris) => batchLoop scripts' (pushBatch l uris) s
        | (s, Threw e) => (s, l, Threw e)
        | (s, Pending) => (s, l, Pending)
        end
    end
  else (s, l, Ret tt).

End Batching.

(** Lines 36-38. *)
Definition initialLocals : Locals :=
  {| allVideoUris := []; videosGenerated := 0; batchNumber := 1 |}.

(** ** Delivery of the results (lines 116-118 and 136-178) *)

(** What the network gives back for one video. *)
Inductive FetchAnswer : Type :=
| FetchRejected (e : Thrown)        (* fetch(...) rejects *)
| FetchNotOk (statusText : string)  (* response.ok is false *)
| BlobRejected (e : Thrown)         (* response.blob() rejects *)
| FetchedBlob (videoUrl : string).  (* URL.createObjectURL(videoBlob) *)

(** Lines 171-176. *)
Definition catchVideo (index : nat) (error : Thrown) (s : Page) : Page :=
  let s := consoleError ("Failed to process video " ++ showNat index ++ ": "
                           ++ errorText error)%string s in
  setResults (resultsSection s
                ++ [ErrorDiv ("Could not load video " ++ showNat index ++ ".")%string])
             s.

(** Lines 139-177: [displayAndDownloadVideo] from the point where its fetch
    has been answered.  Nothing in this part awaits anything but the fetch
    and the blob, so it runs as one block. *)
Definition settleVideo (index : nat) (answer : FetchAnswer) (s : Page) : Page :=
  match answer with
  | FetchRejected e => catchVideo index e s
  | FetchNotOk statusText =>
      catchVideo index
        (ErrorObj ("Failed to fetch video " ++ showNat index ++ ": "
                     ++ statusText)%string) s
  | BlobRejected e => catchVideo index e s
  | FetchedBlob videoUrl =>
      let s := setResults
                 (resultsSection s
                    ++ [VideoContainer videoUrl ("Video " ++ showNat index)%string]) s in
      clickDownload videoUrl
        ("generated_video_" ++ showNat index ++ ".mp4")%string s
  end.

(** Insertion of an index into a list ordered by settle time; equal times
    keep the order of the indices. *)
Fixpoint insertByTime (time : nat -> nat) (i : nat) (l : list nat) : list nat :=
  match l with
  | [] => [i]
  | j :: l' => if (time i <? time j)%nat then i :: l
               else j :: insertByTime time i l'
  end.

(** The order in which the delivery promises of [n] videos settle, given
    the time each fetch takes. *)
Definition settleOrder (time : nat -> nat) (n : nat) : list nat :=
  fold_right (insertByTime time) [] (seq 0 n).

(** The scripted world of one run. *)
Record World : Type := {
  apiKey : string;                     (* process.env.API_KEY *)
  enhancement : option (Settled string);
  batches : list BatchScript;
  fetches : nat -> FetchAnswer;        (* by position in allVideoUris *)
  fetchTime : nat -> nat
}.

(** Line 138 for every video: [map] starts all deliveries in order, each runs
    up to its [await fetch]. *)
Definition startDeliveries (w : World) (uris : list string) (s : Page) : Page :=
  fold_left (fun s uri => call (CallFetch (uri ++ "&key=" ++ apiKey w)%string) s)
            uris s.

(** Lines 116-118: [Promise.all] over the deliveries.  A delivery never
    rejects, so neither does the whole. *)
Definition deliverAll (w : World) (uris : list string) (s : Page) : Page :=
  fold_left
    (fun s i =>
       match nth_error uris i with
       | Some _ => settleVideo (S i) (fetches w i) s
       | None => s
       end)
    (settleOrder (fetchTime w) (List.length uris))
    (startDeliveries w uris s).

(** ** [generateVideos] *)

(** Lines 128-134. *)
Definition enhancePrompt (w : World) (originalPrompt : string) (s : Page)
  : Page * Res string :=
  let s := call (CallEnhance
    ("Enhance this user prompt for a video generation model. Make it highly detailed and descriptive. Crucially, specify that the video must have a consistent main character and be in a portrait (9:16) aspect ratio, suitable for Instagram promotions. Return only the enhanced prompt. User prompt: "
       ++ String (ascii_of_nat 34) originalPrompt ++ String (ascii_of_nat 34) "")%string) s in
  match enhancement w with
  | None => (s, Pending)
  | Some (Rejected e) => (s, Threw e)
  | Some (Resolved text) => (s, Ret text)
  end.

Definition totalVideosToGenerate : nat := 5.
Definition maxVideosPerRequest : nat := 2.

(** Lines 29-118, the [try] block. *)
Definition tryBlock (w : World) (userPrompt : string) (s : Page)
  : Page * Res unit :=
  let s := setStatus "Enhancing your prompt for amazing results..." s in
  match enhancePrompt w userPrompt s with
  | (s, Ret enhancedPrompt) =>
      match batchLoop totalVideosToGenerate maxVideosPerRequest enhancedPrompt
                      (batches w) initialLocals s with
      | (s, l, Ret _) =>
          let s := setStatus
                     "Finalizing all videos and preparing for download..." s in
          (deliverAll w (allVideoUris l) s, Ret tt)
      | (s, _, Threw e) => (s, Threw e)
      | (s, _, Pending) => (s, Pending)
      end
  | (s, Threw e) => (s, Threw e)
  | (s, Pending) => (s, Pending)
  end.

(** Lines 19-126.  The promise of [generateVideos] never rejects: it
    resolves, or stays pending with the await it is stuck on. *)
Definition generateVideos (w : World) (userPrompt : string) (s : Page)
  : Page * Res unit :=
  if (userPrompt =? "")%string then
    (alert "Please enter a video description." s, Ret tt)
  else
    let s := setLoading true "Warming up the creative engine..." s in
    let s := setResults [] s in
    match tryBlock w userPrompt s with
    | (s, Ret _) => (setLoading false "" s, Ret tt)
    | (s, Threw error) =>
        let s := consoleError ("Video generation failed: "
                                 ++ errorText error)%string s in
        let s := setStatus ("An error occurred: " ++ errorText error)%string s in
        (setLoading false "" s, Ret tt)
    | (s, Pending) => (s, Pending)
    end.

(** ** Reading a run from outside *)

(** The counts asked for by the submissions among [cs], in order. *)
Definition requestedCounts (cs : list Call) : list nat :=
  flat_map (fun c => match c with CallSubmit _ n => [n] | _ => [] end) cs.

(** The waits among [cs], in order. *)
Definition sleeps (cs : list Call) : list Z :=
  flat_map (fun c => match c with CallSleep ms => [ms] | _ => [] end) cs.

(** The handles polled among [cs], in order. *)
Definition polled (cs : list Call) : list Operation :=
  flat_map (fun c => match c with CallPoll op => [op] | _ => [] end) cs.

(** The delay in force after [i] rate-limit failures in a row, starting
    from delay [d]: line 90 iterated. *)
Fixpoint backoff (d : Z) (i : nat) : Z :=
  match i with
  | O => d
  | S i' => backoff (Z.min maxPollDelay (d * 2)) i'
  end.

(** The calls of [n] polls of the same handle, each after its backoff. *)
Definition retryCalls (operation : Operation) (d : Z) (n : nat) : list Call :=
  flat_map (fun i => [CallSleep (backoff d i); CallPoll operation]) (seq 0 n).

(** A thrown value classified as rate-limit, in words: an [Error] whose
    message contains "429" or "RESOURCE_EXHAUSTED". *)
Definition RateLimit (e : Thrown) : Prop :=
  exists m pre post,
    e = ErrorObj m /\
    (m = (pre ++ "429" ++ post)%string \/
     m = (pre ++ "RESOURCE_EXHAUSTED" ++ post)%string).

(** One batch as the run went through it. *)
Record BatchJob : Type := {
  batchIndex : nat;
  requestedCount : nat;
  delivered : list string
}.

Section Runs.

Variables total maxPerBatch : nat.
Variable prompt : string.

(** [History scripts l s jobs l' s']: starting the loop with variables [l]
    and page [s], the batches [jobs] are run to the end and pushed, one
    per script and in order, leaving variables [l'] and page [s']. *)
Inductive History
  : list BatchScript -> Locals -> Page -> list BatchJob -> Locals -> Page -> Prop :=
| HistoryNil scripts l s : History scripts l s [] l s
| HistoryCons b scripts l s s1 uris jobs l' s' :
    videosGenerated l < total ->
    runBatch total maxPerBatch prompt l (Some b) s = (s1, Ret uris) ->
    History scripts (pushBatch l uris) s1 jobs l' s' ->
    History (b :: scripts) l s
      ({| batchIndex := batchNumber l;
          requestedCount := videosInThisBatch total maxPerBatch (videosGenerated l);
          delivered := uris |} :: jobs) l' s'.

(** Every job asks for [min(maxPerBatch, total - produced)], where
    [produced] counts the results of the jobs before it. *)
Fixpoint sizedFrom (produced : nat) (jobs : list BatchJob) : Prop :=
  match jobs with
  | [] => True
  | j :: jobs' =>
      produced < total /\
      requestedCount j = Nat.min maxPerBatch (total - produced) /\
      sizedFrom (produced + List.length (delivered j)) jobs'
  end.

End Runs.


(** [Extends s s' extra]: from [s] to [s'] the calls [extra] were made and
    at most the status line was rewritten. *)
Definition Extends (s s' : Page) (extra : list Call) : Prop :=
  calls s' = calls s ++ extra /\
  resultsSection s' = resultsSection s /\
  generateButtonDisabled s' = generateButtonDisabled s /\
  statusSectionDisplay s' = statusSectionDisplay s /\
  alerts s' = alerts s /\
  consoleErrors s' = consoleErrors s /\
  downloads s' = downloads s.

(** What the delivery of video [index] leaves on the page, given the answer
    to its fetch: one child of the results section, a download when the
    video was fetched, a console line when it was not. *)
Definition childOf (index : nat) (answer : FetchAnswer) : Child :=
  match answer with
  | FetchedBlob videoUrl => VideoContainer videoUrl ("Video " ++ showNat index)%string
  | _ => ErrorDiv ("Could not load video " ++ showNat index ++ ".")%string
  end.

Definition downloadOf (index : nat) (answer : FetchAnswer)
  : list (string * string) :=
  match answer with
  | FetchedBlob videoUrl =>
      [(videoUrl, ("generated_video_" ++ showNat index ++ ".mp4")%string)]
  | _ => []
  end.

Definition errorLogOf (index : nat) (answer : FetchAnswer) : list string :=
  match answer with
  | FetchedBlob _ => []
  | FetchRejected e | BlobRejected e =>
      [("Failed to process video " ++ showNat index ++ ": " ++ errorText e)%string]
  | FetchNotOk statusText =>
      [("Failed to process video " ++ showNat index ++ ": "
          ++ "Failed to fetch video " ++ showNat index ++ ": " ++ statusText)%string]
  end.

(** The page on which the batch loop starts: lines 26-32 with the
    enhancement requested. *)
Definition pageBeforeBatches (w : World) (userPrompt : string) (s : Page)
  : Page :=
  fst (enhancePrompt w userPrompt
         (setStatus "Enhancing your prompt for amazing results..."
            (setResults [] (setLoading true "Warming up the creative engine..." s)))).

(** ** Sample data *)

Definition emptyPage : Page :=
  {| statusMessage := ""; resultsSection := [];
     generateButtonDisabled := false; statusSectionDisplay := "none";
     alerts := []; consoleErrors := []; downloads := []; calls := [] |}.

(** A handle that is not done yet. *)
Definition running : Operation := {| done := false; response := None |}.

(** A handle that is done, with one entry per given URI. *)
Definition finished (uris : list (option string)) : Operation :=
  {| done := true;
     response :=
       Some {| generatedVideos :=
                 Some (map (fun u => {| video := Some {| uri := u |} |}) uris) |} |}.

Definition tooManyRequests : Thrown :=
  ErrorObj "got status: 429 Too Many Requests".
Definition quotaExhausted : Thrown :=
  ErrorObj "RESOURCE_EXHAUSTED: quota exceeded".
Definition networkDown : Thrown := ErrorObj "Failed to fetch".

(** A batch whose submission comes back already done. *)
Definition answeredAtOnce (op : Operation) : BatchScript :=
  {| submission := Resolved op; polls := [] |}.

(** A batch that is done after the given poll answers. *)
Definition answeredAfter (ps : list (Settled Operation)) (op : Operation)
  : BatchScript :=
  {| submission := Resolved running; polls := ps ++ [Resolved op] |}.

(** Three batches that deliver what is asked of them: 2, 2 and 1. *)
Definition scriptsExact : list BatchScript :=
  [ answeredAfter [Rejected tooManyRequests; Resolved running]
                  (finished [Some "a"; Some "b"]);
    answeredAtOnce (finished [Some "c"; Some "d"]);
    answeredAfter [] (finished [Some "e"]) ].


(** The second batch comes back with one video for the two asked. *)
Definition scriptsShortSecond : list BatchScript :=
  [ answeredAtOnce (finished [Some "a"; Some "b"]);
    answeredAfter [] (finished [Some "c"]);
    answeredAtOnce (finished [Some "d"; Some "e"]) ].

(** The only batch is done with one entry that carries no URI. *)
Definition scriptsNoUri : list BatchScript :=
  [ answeredAtOnce (finished [None]) ].

(** The poll of the second batch fails for good; a third batch is ready. *)
Definition scriptsFailSecond : list BatchScript :=
  [ answeredAtOnce (finished [Some "a"; Some "b"]);
    {| submission := Resolved running; polls := [Rejected networkDown] |};
    answeredAtOnce (finished [Some "e"]) ].

(** The poll of the first batch fails for good. *)
Definition scriptsFailFirst : list BatchScript :=
  [ {| submission := Resolved running; polls := [Rejected networkDown] |};
    answeredAtOnce (finished [Some "a"; Some "b"]) ].

(** A run of five videos of which the third cannot be fetched, the fetches
    completing in reverse order. *)
Definition worldThirdFails : World :=
  {| apiKey := "K";
     enhancement := Some (Resolved "P");
     batches := scriptsExact;
     fetches := fun i => if (i =? 2)%nat then FetchNotOk "Forbidden"
                         else FetchedBlob "blob:v";
     fetchTime := fun i => 5 - i |}.

(** ** Further observers and sample data *)

(** The URLs fetched among [cs], in order. *)
Definition fetched (cs : list Call) : list string :=
  flat_map (fun c => match c with CallFetch u => [u] | _ => [] end) cs.

(** The prompts submitted among [cs], in order. *)
Definition submittedPrompts (cs : list Call) : list string :=
  flat_map (fun c => match c with CallSubmit p _ => [p] | _ => [] end) cs.

(** A call the poll loop makes: a wait or a poll. *)
Definition waitOrPoll (c : Call) : Prop :=
  match c with
  | CallSleep _ | CallPoll _ => True
  | _ => False
  end.

(** A poll script made of streaks: each streak is some failures in a row
    followed by an answer. *)
Definition streaksScript (streaks : list (list Thrown * Operation))
  : list (Settled Operation) :=
  flat_map (fun k => map Rejected (fst k) ++ [Resolved (snd k)]) streaks.

(** A world whose enhancement is refused. *)
Definition worldNoEnhancement : World :=
  {| apiKey := "K";
     enhancement := Some (Rejected networkDown);
     batches := scriptsExact;
     fetches := fun _ => FetchedBlob "blob:v";
     fetchTime := fun i => i |}.

(** A world whose second batch fails for good. *)
Definition worldFailSecond : World :=
  {| apiKey := "K";
     enhancement := Some (Resolved "P");
     batches := scriptsFailSecond;
     fetches := fun _ => FetchedBlob "blob:v";
     fetchTime := fun i => i |}.

(** A page left over from an earlier run. *)
Definition usedPage : Page :=
  {| statusMessage := "Rate limit reached. Waiting 40s before retrying...";
     resultsSection := [ErrorDiv "Could not load video 1."];
     generateButtonDisabled := false; statusSectionDisplay := "none";
     alerts := ["Please enter a video description."];
     consoleErrors := ["Failed to process video 1: Failed to fetch"];
     downloads := []; calls := [CallEnhance "earlier"] |}.

(** Lines 120-125: the [catch] and the [finally] after a throw. *)
Definition afterCatch (error : Thrown) (s : Page) : Page :=
  setLoading false ""
    (setStatus ("An error occurred: " ++ errorText error)%string
       (consoleError ("Video generation failed: " ++ errorText error)%string s)).

(** * Properties *)

(** ** Strings *)

Lemma prefix_app (sub s : string) :
  String.prefix sub s = true <-> exists post, s = (sub ++ post)%string.
Proof.
  revert s; induction sub as [|a sub IH]; intros s.
  - split; [intros _; exists s; reflexivity | intros _; now destruct s].
  - destruct s as [|b s]; simpl.
    + split; [discriminate | intros [post H]; discriminate].
    + destruct (Ascii.ascii_dec a b) as [->|Hab].
      * rewrite IH. split; intros [post H]; exists post.
        -- now rewrite H.
        -- now inversion H.
      * split; [discriminate | intros [post H]; inversion H; congruence].
Qed.

Lemma includes_spec (s sub : string) :
  includes s sub = true <->
  exists pre post, s = (pre ++ sub ++ post)%string.
Proof.
  induction s as [|a s IH]; cbn [includes].
  - rewrite orb_false_r, prefix_app. split.
    + intros [post H]. now exists EmptyString, post.
    + intros [pre [post H]]. destruct pre; [now exists post|discriminate].
  - rewrite orb_true_iff, prefix_app, IH. split.
    + intros [[post H]|[pre [post H]]].
      * now exists EmptyString, post.
      * exists (String a pre), post. simpl. now rewrite H.
    + intros [pre [post H]]. destruct pre as [|c pre]; simpl in H.
      * left. now exists post.
      * right. inversion H. now exists pre, post.
Qed.

Lemma isRateLimitError_spec (e : Thrown) :
  isRateLimitError e = true <-> RateLimit e.
Proof.
  unfold RateLimit. destruct e as [m|t]; simpl.
  - rewrite orb_true_iff, !includes_spec. split.
    + intros [[pre [post H]]|[pre [post H]]]; exists m, pre, post; auto.
    + intros [m' [pre [post [Hm H]]]]. inversion Hm; subst m'.
      destruct H; [left|right]; now exists pre, post.
  - split; [discriminate|]. intros [m [pre [post [H _]]]]. discriminate.
Qed.

(** ** The backoff schedule *)

Lemma backoff_succ (d : Z) (i : nat) :
  backoff d (S i) = Z.min maxPollDelay (backoff d i * 2).
Proof.
  revert d; induction i as [|i IH]; intros d; [reflexivity|].
  change (backoff d (S (S i))) with (backoff (Z.min maxPollDelay (d * 2)) (S i)).
  now rewrite IH.
Qed.

Lemma backoff_closed_form (i : nat) :
  backoff basePollDelay i = Z.min 60000 (20000 * 2 ^ Z.of_nat i).
Proof.
  induction i as [|i IH]; [reflexivity|].
  rewrite backoff_succ, IH. unfold maxPollDelay.
  rewrite Nat2Z.inj_succ, Z.pow_succ_r by lia.
  assert (0 < 2 ^ Z.of_nat i)%Z by (apply Z.pow_pos_nonneg; lia).
  lia.
Qed.

(** From the base delay the schedule is 20000, 40000, 60000, 60000, ...:
    whole seconds, as the status line prints them. *)
Lemma backoff_values (i : nat) :
  backoff basePollDelay i =
  match i with O => 20000%Z | S O => 40000%Z | _ => 60000%Z end.
Proof.
  destruct i as [|[|i]]; [reflexivity|reflexivity|].
  rewrite backoff_closed_form.
  assert (4 <= 2 ^ Z.of_nat (S (S i)))%Z.
  { rewrite !Nat2Z.inj_succ, !Z.pow_succ_r by lia.
    assert (0 < 2 ^ Z.of_nat i)%Z by (apply Z.pow_pos_nonneg; lia). lia. }
  lia.
Qed.

Lemma retryCalls_succ (operation : Operation) (d : Z) (n : nat) :
  retryCalls operation d (S n) =
  CallSleep d :: CallPoll operation
    :: retryCalls operation (Z.min maxPollDelay (d * 2)) n.
Proof.
  unfold retryCalls. simpl. rewrite <- seq_shift, flat_map_concat_map, map_map.
  now rewrite <- flat_map_concat_map.
Qed.

Lemma retryCalls_snoc (operation : Operation) (d : Z) (n : nat) :
  retryCalls operation d (S n) =
  retryCalls operation d n ++ [CallSleep (backoff d n); CallPoll operation].
Proof.
  unfold retryCalls. rewrite seq_S, flat_map_app. simpl. reflexivity.
Qed.

Lemma sleeps_retryCalls (operation : Operation) (d : Z) (n : nat) :
  sleeps (retryCalls operation d n) = map (backoff d) (seq 0 n).
Proof.
  revert d; induction n as [|n IH]; intros d; [reflexivity|].
  rewrite retryCalls_succ. simpl. unfold sleeps in IH. rewrite IH.
  f_equal. rewrite <- seq_shift, map_map. reflexivity.
Qed.

Lemma polled_retryCalls (operation : Operation) (d : Z) (n : nat) :
  polled (retryCalls operation d n) = repeat operation n.
Proof.
  revert d; induction n as [|n IH]; intros d; [reflexivity|].
  rewrite retryCalls_succ. simpl. unfold polled in IH. now rewrite IH.
Qed.

Lemma requestedCounts_retryCalls (operation : Operation) (d : Z) (n : nat) :
  requestedCounts (retryCalls operation d n) = [].
Proof.
  revert d; induction n as [|n IH]; intros d; [reflexivity|].
  rewrite retryCalls_succ. simpl. apply IH.
Qed.

(** ** Page bookkeeping *)

Lemma Extends_refl (s : Page) : Extends s s [].
Proof. unfold Extends. now rewrite app_nil_r. Qed.

Lemma Extends_trans (s s1 s2 : Page) (e1 e2 : list Call) :
  Extends s s1 e1 -> Extends s1 s2 e2 -> Extends s s2 (e1 ++ e2).
Proof.
  unfold Extends.
  intros (C1 & R1 & B1 & D1 & A1 & E1 & W1) (C2 & R2 & B2 & D2 & A2 & E2 & W2).
  rewrite C2, C1, app_assoc. repeat split; congruence.
Qed.

Lemma Extends_setStatus (m : string) (s : Page) : Extends s (setStatus m s) [].
Proof. unfold Extends; simpl. now rewrite app_nil_r. Qed.

Lemma Extends_call (c : Call) (s : Page) : Extends s (call c s) [c].
Proof. unfold Extends; simpl. repeat split. Qed.

Lemma Extends_announcePoll (n i : nat) (s : Page) :
  Extends s (announcePoll n i s) [].
Proof.
  unfold announcePoll.
  destruct (negb _); [apply Extends_setStatus | apply Extends_refl].
Qed.

Lemma Extends_sleepThenPoll (op : Operation) (d : Z) (s : Page) :
  Extends s (sleepThenPoll op d s) [CallSleep d; CallPoll op].
Proof.
  unfold sleepThenPoll.
  apply (Extends_trans s (call (CallSleep d) s) _ [CallSleep d] [CallPoll op]);
    apply Extends_call.
Qed.

Lemma Extends_iteration (n i : nat) (op : Operation) (d : Z) (s : Page) :
  Extends s (sleepThenPoll op d (announcePoll n i s))
          [CallSleep d; CallPoll op].
Proof.
  apply (Extends_trans _ _ _ [] _ (Extends_announcePoll n i s)).
  apply Extends_sleepThenPoll.
Qed.

(** ** One turn of the poll loop *)

Lemma pollLoop_done n ps op i r d s :
  done op = true -> pollLoop n ps op i r d s = (s, Ret op).
Proof. intros H. destruct ps; simpl; now rewrite H. Qed.

Lemma pollLoop_unanswered n op i r d s :
  done op = false ->
  pollLoop n [] op i r d s = (sleepThenPoll op d (announcePoll n i s), Pending).
Proof. intros H. simpl. now rewrite H. Qed.

Lemma pollLoop_resolved n ps op op' i r d s :
  done op = false ->
  pollLoop n (Resolved op' :: ps) op i r d s =
  pollLoop n ps op' (S i) 0 basePollDelay
           (sleepThenPoll op d (announcePoll n i s)).
Proof. intros H. simpl. now rewrite H. Qed.

Lemma pollLoop_rejected n ps op e i r d s :
  done op = false ->
  pollLoop n (Rejected e :: ps) op i r d s =
  match onPollFailure e r d with
  | inl (r', d', msg) =>
      pollLoop n ps op (S i) r' d'
               (setStatus msg (sleepThenPoll op d (announcePoll n i s)))
  | inr e' => (sleepThenPoll op d (announcePoll n i s), Threw e')
  end.
Proof. intros H. simpl. now rewrite H. Qed.

Lemma onPollFailure_retry e r d :
  isRateLimitError e = true -> r < maxPollRetries ->
  onPollFailure e r d =
  inl (S r, Z.min maxPollDelay (d * 2),
       ("Rate limit reached. Waiting "
          ++ showZ (Z.min maxPollDelay (d * 2) / 1000)
          ++ "s before retrying...")%string).
Proof.
  intros He Hr. unfold onPollFailure. rewrite He.
  apply Nat.ltb_lt in Hr. now rewrite Hr.
Qed.

Lemma onPollFailure_fatal e r d :
  isRateLimitError e = false \/ maxPollRetries <= r ->
  onPollFailure e r d =
  inr (ErrorObj ("Polling failed after " ++ showNat r ++ " retries: "
                   ++ errorText e)%string).
Proof.
  intros H. unfold onPollFailure. destruct H as [He|Hr].
  - now rewrite He.
  - apply Nat.ltb_ge in Hr. rewrite Hr. now rewrite andb_false_r.
Qed.

(** A run of rate-limit failures within the budget: the handle is polled
    again unchanged, once per failure, each time after the next backoff. *)
Lemma pollLoop_rate_limited es : forall n rest op i r d s,
  done op = false ->
  Forall (fun e => isRateLimitError e = true) es ->
  r + List.length es <= maxPollRetries ->
  exists s1,
    pollLoop n (map Rejected es ++ rest) op i r d s =
    pollLoop n rest op (List.length es + i) (List.length es + r)
             (backoff d (List.length es)) s1 /\
    Extends s s1 (retryCalls op d (List.length es)).
Proof.
  induction es as [|e es IH]; intros n rest op i r d s Hd Hes Hr.
  - exists s. split; [reflexivity | apply Extends_refl].
  - inversion Hes as [|? ? He Hes']; subst. simpl in Hr.
    simpl map. simpl app. rewrite pollLoop_rejected by assumption.
    rewrite onPollFailure_retry by (assumption || lia).
    edestruct (IH n rest op (S i) (S r) (Z.min maxPollDelay (d * 2))) as [s1 [E X]];
      [eassumption | assumption | lia |].
    exists s1. split.
    + rewrite E. simpl List.length. rewrite !Nat.add_succ_r. reflexivity.
    + simpl List.length. rewrite retryCalls_succ.
      change (CallSleep d :: CallPoll op :: ?l) with ([CallSleep d; CallPoll op] ++ l).
      eapply Extends_trans; [|exact X].
      apply (Extends_trans _ _ _ _ [] (Extends_iteration n i op d s)).
      apply Extends_setStatus.
Qed.

(** Whatever the script, the poll loop only waits and polls. *)
Lemma pollLoop_extends ps : forall n op i r d s s' res,
  pollLoop n ps op i r d s = (s', res) ->
  exists extra, Extends s s' extra /\ requestedCounts extra = [].
Proof.
  induction ps as [|p ps IH]; intros n op i r d s s' res H;
    destruct (done op) eqn:Hd.
  - rewrite pollLoop_done in H by assumption. inversion H; subst.
    exists []. split; [apply Extends_refl | reflexivity].
  - rewrite pollLoop_unanswered in H by assumption. inversion H; subst.
    eexists. split; [apply Extends_iteration | reflexivity].
  - rewrite pollLoop_done in H by assumption. inversion H; subst.
    exists []. split; [apply Extends_refl | reflexivity].
  - destruct p as [op'|e].
    + rewrite pollLoop_resolved in H by assumption.
      apply IH in H. destruct H as [extra [X R]].
      exists ([CallSleep d; CallPoll op] ++ extra). split.
      * eapply Extends_trans; [apply Extends_iteration | exact X].
      * exact R.
    + rewrite pollLoop_rejected in H by assumption.
      destruct (onPollFailure e r d) as [[[r' d'] msg]|e'].
      * apply IH in H. destruct H as [extra [X R]].
        exists ([CallSleep d; CallPoll op] ++ extra). split.
        -- eapply Extends_trans; [|exact X].
           apply (Extends_trans _ _ _ _ [] (Extends_iteration n i op d s)).
           apply Extends_setStatus.
        -- exact R.
      * inversion H; subst.
        eexists. split; [apply Extends_iteration | reflexivity].
Qed.

(** The loop is left normally only with a handle that is done. *)
Lemma pollLoop_ret_done ps : forall n op i r d s s' op',
  pollLoop n ps op i r d s = (s', Ret op') -> done op' = true.
Proof.
  induction ps as [|p ps IH]; intros n op i r d s s' op' H;
    destruct (done op) eqn:Hd.
  - rewrite pollLoop_done in H by assumption. now inversion H; subst.
  - rewrite pollLoop_unanswered in H by assumption. discriminate.
  - rewrite pollLoop_done in H by assumption. now inversion H; subst.
  - destruct p as [op1|e].
    + rewrite pollLoop_resolved in H by assumption. eauto.
    + rewrite pollLoop_rejected in H by assumption.
      destruct (onPollFailure e r d) as [[[r' d'] msg]|e']; [eauto|discriminate].
Qed.

(** What the loop throws is always its own "Polling failed" error. *)
Lemma pollLoop_threw ps : forall n op i r d s s' e,
  pollLoop n ps op i r d s = (s', Threw e) ->
  exists k e0,
    e = ErrorObj ("Polling failed after " ++ showNat k ++ " retries: "
                    ++ errorText e0)%string.
Proof.
  induction ps as [|p ps IH]; intros n op i r d s s' e H;
    destruct (done op) eqn:Hd.
  - rewrite pollLoop_done in H by assumption. discriminate.
  - rewrite pollLoop_unanswered in H by assumption. discriminate.
  - rewrite pollLoop_done in H by assumption. discriminate.
  - destruct p as [op1|e1].
    + rewrite pollLoop_resolved in H by assumption.
      exact (IH _ _ _ _ _ _ _ _ H).
    + rewrite pollLoop_rejected in H by assumption.
      unfold onPollFailure in H.
      destruct (isRateLimitError e1 && (r <? maxPollRetries)%nat).
      * exact (IH _ _ _ _ _ _ _ _ H).
      * inversion H; subst. now exists r, e1.
Qed.

(** ** Retry and backoff *)

(** Up to five rate-limit failures in a row, then an answer: the loop goes
    on from the answer with the counters reset. *)
Lemma pollLoop_recovers es n rest op op' i d s :
  done op = false ->
  Forall (fun e => isRateLimitError e = true) es ->
  List.length es <= maxPollRetries ->
  exists s1,
    pollLoop n (map Rejected es ++ Resolved op' :: rest) op i 0 d s =
    pollLoop n rest op' (S (List.length es + i)) 0 basePollDelay s1 /\
    Extends s s1 (retryCalls op d (S (List.length es))).
Proof.
  intros Hd Hes Hn.
  destruct (pollLoop_rate_limited es n (Resolved op' :: rest) op i 0 d s)
    as [s0 [E X]]; [assumption | assumption | lia |].
  rewrite E, pollLoop_resolved by assumption.
  eexists. split; [reflexivity|].
  rewrite retryCalls_snoc.
  eapply Extends_trans; [exact X | apply Extends_iteration].
Qed.

Lemma Forall_firstn {A : Type} (P : A -> Prop) (k : nat) (l : list A) :
  Forall P l -> Forall P (firstn k l).
Proof.
  intros H. rewrite <- (firstn_skipn k l) in H.
  now apply Forall_app in H.
Qed.

(** Five rate-limit failures in a row and then any failure: that failure
    is thrown, after six polls in all. *)
Lemma pollLoop_sixth_failure fs e n rest op i d s :
  done op = false ->
  Forall (fun e => isRateLimitError e = true) fs ->
  List.length fs = maxPollRetries ->
  exists s1,
    pollLoop n (map Rejected (fs ++ [e]) ++ rest) op i 0 d s =
    (s1, Threw (ErrorObj ("Polling failed after " ++ showNat maxPollRetries
                            ++ " retries: " ++ errorText e)%string)) /\
    Extends s s1 (retryCalls op d (S maxPollRetries)).
Proof.
  intros Hd Hfs Hf.
  destruct (pollLoop_rate_limited fs n (Rejected e :: rest) op i 0 d s)
    as [s0 [E X]]; [assumption | assumption | lia |].
  rewrite map_app, <- app_assoc. simpl app.
  rewrite E, Hf, pollLoop_rejected by assumption.
  rewrite onPollFailure_fatal by (right; lia).
  rewrite Nat.add_0_r. eexists. split; [reflexivity|].
  rewrite retryCalls_snoc. rewrite Hf in X.
  eapply Extends_trans; [exact X | apply Extends_iteration].
Qed.

(** More than five rate-limit failures in a row: the sixth failure is
    thrown, and the rest of the script is never asked for. *)
Lemma pollLoop_exhausted es n rest op i d s :
  done op = false ->
  Forall (fun e => isRateLimitError e = true) es ->
  maxPollRetries < List.length es ->
  exists s1,
    pollLoop n (map Rejected es ++ rest) op i 0 d s =
    (s1, Threw (ErrorObj ("Polling failed after " ++ showNat maxPollRetries
                            ++ " retries: "
                            ++ errorText (nth maxPollRetries es (ErrorObj "")))%string)) /\
    Extends s s1 (retryCalls op d (S maxPollRetries)).
Proof.
  intros Hd Hes Hn.
  pose proof (firstn_skipn maxPollRetries es) as Hs.
  assert (Hf : List.length (firstn maxPollRetries es) = maxPollRetries)
    by (rewrite length_firstn; lia).
  destruct (skipn maxPollRetries es) as [|e tl] eqn:Hsk.
  { apply (f_equal (@List.length _)) in Hsk. rewrite length_skipn in Hsk.
    simpl in Hsk. lia. }
  assert (He : nth maxPollRetries es (ErrorObj "") = e).
  { rewrite <- Hs. rewrite app_nth2 by lia. now rewrite Hf, Nat.sub_diag. }
  rewrite He.
  destruct (pollLoop_sixth_failure (firstn maxPollRetries es) e n
              (map Rejected tl ++ rest) op i d s) as [s1 [E X]];
    [assumption | now apply Forall_firstn | assumption |].
  exists s1. split; [|exact X].
  rewrite <- E. f_equal.
  rewrite <- Hs at 1.
  change (e :: tl) with ([e] ++ tl).
  now rewrite app_assoc, (map_app _ (_ ++ [e]) tl), <- app_assoc.
Qed.

Lemma sleeps_app (a b : list Call) : sleeps (a ++ b) = sleeps a ++ sleeps b.
Proof. apply flat_map_app. Qed.

Lemma polled_app (a b : list Call) : polled (a ++ b) = polled a ++ polled b.
Proof. apply flat_map_app. Qed.

Lemma requestedCounts_app (a b : list Call) :
  requestedCounts (a ++ b) = requestedCounts a ++ requestedCounts b.
Proof. apply flat_map_app. Qed.

Lemma schedule_from_base (k : nat) :
  map (backoff basePollDelay) (seq 0 k) =
  map (fun j => Z.min 60000 (20000 * 2 ^ Z.of_nat j)) (seq 0 k).
Proof. apply map_ext. intros j. apply backoff_closed_form. Qed.

(** C4: with [es] rate-limit failures in a row followed by an answer, the
    waits before the successive polls are 20000 * 2^0, 20000 * 2^1, ...
    capped at 60000, one per poll made; when the answer is reached (at most
    five failures) the loop goes on from it with the retry count at 0 and
    the delay back at 20000, and otherwise the loop has thrown before. *)
Theorem backoff_doubles_then_resets n es rest op op' i s :
  done op = false ->
  Forall (fun e => isRateLimitError e = true) es ->
  exists s1,
    sleeps (calls s1) =
      sleeps (calls s)
        ++ map (fun j => Z.min 60000 (20000 * 2 ^ Z.of_nat j))
               (seq 0 (S (Nat.min (List.length es) maxPollRetries))) /\
    (List.length es <= maxPollRetries ->
     pollLoop n (map Rejected es ++ Resolved op' :: rest) op i 0 basePollDelay s =
     pollLoop n rest op' (S (List.length es + i)) 0 basePollDelay s1) /\
    (maxPollRetries < List.length es ->
     exists e,
       pollLoop n (map Rejected es ++ Resolved op' :: rest) op i 0 basePollDelay s =
       (s1, Threw e)).
Proof.
  intros Hd Hes.
  destruct (Nat.le_gt_cases (List.length es) maxPollRetries) as [Hn|Hn].
  - destruct (pollLoop_recovers es n rest op op' i basePollDelay s Hd Hes Hn)
      as [s1 [E X]].
    exists s1. split; [|split; [intros _; exact E | lia]].
    destruct X as [C _]. rewrite C, sleeps_app, sleeps_retryCalls.
    rewrite Nat.min_l by assumption. now rewrite schedule_from_base.
  - destruct (pollLoop_exhausted es n (Resolved op' :: rest) op i basePollDelay s
                Hd Hes Hn) as [s1 [E X]].
    exists s1. split; [|split; [lia | intros _; eexists; exact E]].
    destruct X as [C _]. rewrite C, sleeps_app, sleeps_retryCalls.
    rewrite Nat.min_r by lia. now rewrite schedule_from_base.
Qed.

Lemma backoff_doubles_then_resets_witness :
  exists s1,
    sleeps (calls s1) = [20000; 40000; 60000; 60000]%Z /\
    pollLoop 1 [Rejected tooManyRequests; Rejected quotaExhausted;
                Rejected tooManyRequests; Resolved (finished [Some "u"])]
             running 0 0 basePollDelay emptyPage =
    pollLoop 1 [] (finished [Some "u"]) 4 0 basePollDelay s1.
Proof.
  destruct (backoff_doubles_then_resets 1
              [tooManyRequests; quotaExhausted; tooManyRequests] []
              running (finished [Some "u"]) 0 emptyPage)
    as [s1 [S [E _]]].
  - reflexivity.
  - repeat constructor.
  - exists s1. split; [exact S | apply E; vm_compute; lia].
Defined.

(** C5: with more than five rate-limit failures in a row the loop throws on
    the sixth, having polled six times (the first poll and five retries)
    and never a seventh; while the budget lasts, [k] failures leave the loop
    polling the same handle with the retry count at [k], and the results
    area untouched. *)
Theorem retries_exhausted_after_five n es rest op i s :
  done op = false ->
  Forall (fun e => isRateLimitError e = true) es ->
  maxPollRetries < List.length es ->
  (exists s1,
     pollLoop n (map Rejected es ++ rest) op i 0 basePollDelay s =
     (s1, Threw (ErrorObj ("Polling failed after 5 retries: "
                             ++ errorText (nth 5 es (ErrorObj "")))%string)) /\
     polled (calls s1) = polled (calls s) ++ repeat op 6 /\
     resultsSection s1 = resultsSection s) /\
  (forall k, k <= maxPollRetries ->
     exists sk,
       pollLoop n (map Rejected es ++ rest) op i 0 basePollDelay s =
       pollLoop n (map Rejected (skipn k es) ++ rest) op (k + i) k
                (backoff basePollDelay k) sk /\
       polled (calls sk) = polled (calls s) ++ repeat op k /\
       resultsSection sk = resultsSection s).
Proof.
  intros Hd Hes Hn. split.
  - destruct (pollLoop_exhausted es n rest op i basePollDelay s Hd Hes Hn)
      as [s1 [E X]].
    exists s1. split; [exact E|].
    destruct X as (C & R & _). split; [|exact R].
    now rewrite C, polled_app, polled_retryCalls.
  - intros k Hk.
    assert (Hf : List.length (firstn k es) = k) by (rewrite length_firstn; lia).
    destruct (pollLoop_rate_limited (firstn k es) n
                (map Rejected (skipn k es) ++ rest) op i 0 basePollDelay s)
      as [sk [E X]]; [assumption | now apply Forall_firstn | lia |].
    rewrite app_assoc, <- map_app, firstn_skipn, Hf, Nat.add_0_r in E.
    exists sk. split; [exact E|].
    destruct X as (C & R & _). split; [|exact R].
    rewrite Hf in C. now rewrite C, polled_app, polled_retryCalls.
Qed.

Lemma retries_exhausted_after_five_witness :
  exists s1,
    pollLoop 2 (map Rejected (repeat tooManyRequests 7)
                  ++ [Resolved (finished [Some "u"])])
             running 0 0 basePollDelay emptyPage =
    (s1, Threw (ErrorObj
                  "Polling failed after 5 retries: got status: 429 Too Many Requests")) /\
    polled (calls s1) = repeat running 6 /\
    resultsSection s1 = [].
Proof.
  destruct (retries_exhausted_after_five 2 (repeat tooManyRequests 7)
              [Resolved (finished [Some "u"])] running 0 emptyPage)
    as [H _].
  - reflexivity.
  - repeat constructor.
  - vm_compute; lia.
  - exact H.
Defined.

(** C6: a poll failure that is not classified as rate-limit is thrown at
    once, whatever the retry count [r] then is: the poll just made is the
    last call of the loop. *)
Theorem other_failure_is_fatal n e rest op i r d s :
  done op = false ->
  isRateLimitError e = false ->
  pollLoop n (Rejected e :: rest) op i r d s =
  (sleepThenPoll op d (announcePoll n i s),
   Threw (ErrorObj ("Polling failed after " ++ showNat r ++ " retries: "
                      ++ errorText e)%string)).
Proof.
  intros Hd He. rewrite pollLoop_rejected by assumption.
  now rewrite onPollFailure_fatal by (left; assumption).
Qed.

Lemma other_failure_is_fatal_witness :
  pollLoop 1 [Rejected networkDown; Resolved (finished [Some "u"])]
           running 0 0 basePollDelay emptyPage =
  (sleepThenPoll running basePollDelay (announcePoll 1 0 emptyPage),
   Threw (ErrorObj "Polling failed after 0 retries: Failed to fetch")).
Proof.
  apply (other_failure_is_fatal 1 networkDown
           [Resolved (finished [Some "u"])] running 0 0 basePollDelay emptyPage);
    reflexivity.
Defined.

(** ** One batch *)

Section BatchProperties.

Variables total maxPerBatch : nat.
Variable prompt : string.

Lemma Extends_submitBatch l s :
  Extends s (submitBatch total maxPerBatch prompt l s)
          [CallSubmit prompt (videosInThisBatch total maxPerBatch (videosGenerated l))].
Proof.
  unfold submitBatch.
  eapply (Extends_trans _ _ _ []); [apply Extends_setStatus | apply Extends_call].
Qed.

(** A batch makes one submission, then only waits and polls. *)
Lemma runBatch_extends l script s s' res :
  runBatch total maxPerBatch prompt l script s = (s', res) ->
  exists extra,
    Extends s s'
      (CallSubmit prompt (videosInThisBatch total maxPerBatch (videosGenerated l))
         :: extra) /\
    requestedCounts extra = [].
Proof.
  unfold runBatch. intros H.
  pose proof (Extends_submitBatch l s) as X0.
  destruct script as [b|].
  - destruct (submission b) as [op|e].
    + destruct (pollLoop _ _ _ _ _ _ _) as [s1 r] eqn:P.
      apply pollLoop_extends in P. destruct P as [extra [X R]].
      exists extra. split; [|exact R].
      assert (s' = s1) by (destruct r; now inversion H). subst s1.
      exact (Extends_trans _ _ _ _ _ X0 X).
    + inversion H; subst. exists []. now split.
  - inversion H; subst. exists []. now split.
Qed.

(** The three ways a batch can fail. *)
Lemma runBatch_threw l b s s' e :
  runBatch total maxPerBatch prompt l (Some b) s = (s', Threw e) ->
  submission b = Rejected e \/
  (exists k e0,
      e = ErrorObj ("Polling failed after " ++ showNat k ++ " retries: "
                      ++ errorText e0)%string) \/
  e = ErrorObj ("Video generation batch " ++ showNat (batchNumber l)
                  ++ " failed to produce any videos.")%string.
Proof.
  unfold runBatch. intros H.
  destruct (submission b) as [op|e1].
  - destruct (pollLoop _ _ _ _ _ _ _) as [s1 [op1|e1|]] eqn:P.
    + right; right. unfold collectBatch in H.
      destruct (responseVideos op1) as [[|v vs]|]; now inversion H.
    + right; left. inversion H; subst. eapply pollLoop_threw; eassumption.
    + discriminate.
  - left. now inversion H.
Qed.


(** ** The batches of a run *)

Lemma History_locals scripts l s jobs l' s' :
  History total maxPerBatch prompt scripts l s jobs l' s' ->
  allVideoUris l' = allVideoUris l ++ flat_map delivered jobs /\
  videosGenerated l' =
    videosGenerated l + List.length (flat_map delivered jobs) /\
  batchNumber l' = batchNumber l + List.length jobs.
Proof.
  induction 1 as [|b scripts l s s1 uris jobs l' s' Hlt Hrun Hh IH]; simpl.
  - now rewrite app_nil_r, !Nat.add_0_r.
  - destruct IH as (A & G & N). simpl in A, G, N.
    rewrite A, G, N, length_app, <- app_assoc. repeat split; lia.
Qed.


Lemma History_sized scripts l s jobs l' s' :
  History total maxPerBatch prompt scripts l s jobs l' s' ->
  sizedFrom total maxPerBatch (videosGenerated l) jobs.
Proof.
  induction 1 as [|b scripts l s s1 uris jobs l' s' Hlt Hrun Hh IH]; simpl.
  - exact I.
  - repeat split; assumption.
Qed.

Lemma History_requests scripts l s jobs l' s' :
  History total maxPerBatch prompt scripts l s jobs l' s' ->
  requestedCounts (calls s') =
    requestedCounts (calls s) ++ map requestedCount jobs /\
  resultsSection s' = resultsSection s.
Proof.
  induction 1 as [|b scripts l s s1 uris jobs l' s' Hlt Hrun Hh IH]; simpl.
  - now rewrite app_nil_r.
  - destruct IH as [C R].
    apply runBatch_extends in Hrun. destruct Hrun as [extra [X E]].
    destruct X as (C1 & R1 & _).
    rewrite C, R, C1, R1, requestedCounts_app. simpl.
    rewrite E, <- app_assoc. now split.
Qed.


Lemma batchLoop_nil l s :
  batchLoop total maxPerBatch prompt [] l s =
  if (videosGenerated l <? total)%nat
  then (submitBatch total maxPerBatch prompt l s, l, Pending)
  else (s, l, Ret tt).
Proof. reflexivity. Qed.

Lemma batchLoop_cons b scripts l s :
  batchLoop total maxPerBatch prompt (b :: scripts) l s =
  if (videosGenerated l <? total)%nat then
    match runBatch total maxPerBatch prompt l (Some b) s with
    | (s1, Ret uris) => batchLoop total maxPerBatch prompt scripts (pushBatch l uris) s1
    | (s1, Threw e) => (s1, l, Threw e)
    | (s1, Pending) => (s1, l, Pending)
    end
  else (s, l, Ret tt).
Proof. reflexivity. Qed.

(** How the loop ends, and what it went through before. *)
Lemma batchLoop_history scripts : forall l s s' l' res,
  batchLoop total maxPerBatch prompt scripts l s = (s', l', res) ->
  exists jobs s0,
    History total maxPerBatch prompt scripts l s jobs l' s0 /\
    match res with
    | Ret _ => s' = s0 /\ total <= videosGenerated l'
    | Threw e =>
        videosGenerated l' < total /\
        exists b, nth_error scripts (List.length jobs) = Some b /\
                  runBatch total maxPerBatch prompt l' (Some b) s0 = (s', Threw e)
    | Pending =>
        videosGenerated l' < total /\
        (nth_error scripts (List.length jobs) = None /\
         s' = submitBatch total maxPerBatch prompt l' s0
         \/ exists b, nth_error scripts (List.length jobs) = Some b /\
                      runBatch total maxPerBatch prompt l' (Some b) s0 = (s', Pending))
    end.
Proof.
  induction scripts as [|b scripts IH]; intros l s s' l' res H;
    [rewrite batchLoop_nil in H | rewrite batchLoop_cons in H];
    destruct (videosGenerated l <? total)%nat eqn:Hlt.
  - apply Nat.ltb_lt in Hlt. inversion H; subst.
    exists [], s. split; [constructor|]. split; [assumption|]. now left.
  - apply Nat.ltb_ge in Hlt. inversion H; subst.
    exists [], s'. split; [constructor|]. now split.
  - apply Nat.ltb_lt in Hlt.
    destruct (runBatch total maxPerBatch prompt l (Some b) s)
      as [s1 [uris|e|]] eqn:Hrun.
    + apply IH in H. destruct H as (jobs & s0 & Hh & Hres).
      eexists (_ :: jobs), s0. split.
      * econstructor; eassumption.
      * exact Hres.
    + inversion H; subst. exists [], s. split; [constructor|].
      split; [assumption|]. exists b. now split.
    + inversion H; subst. exists [], s. split; [constructor|].
      split; [assumption|]. right. exists b. now split.
  - apply Nat.ltb_ge in Hlt. inversion H; subst.
    exists [], s'. split; [constructor|]. now split.
Qed.

(** ** Sizes *)

Lemma sized_bounds : forall jobs produced,
  0 < maxPerBatch ->
  sizedFrom total maxPerBatch produced jobs ->
  Forall (fun j => 1 <= requestedCount j <= maxPerBatch) jobs.
Proof.
  induction jobs as [|j jobs IH]; intros produced Hm H; constructor.
  - destruct H as (Hlt & Hreq & _). lia.
  - destruct H as (_ & _ & H). eapply IH; eassumption.
Qed.

Lemma sized_exact : forall jobs produced,
  produced <= total ->
  sizedFrom total maxPerBatch produced jobs ->
  Forall (fun j => List.length (delivered j) = requestedCount j) jobs ->
  list_sum (map requestedCount jobs) = List.length (flat_map delivered jobs) /\
  produced + List.length (flat_map delivered jobs) <= total.
Proof.
  induction jobs as [|j jobs IH]; intros produced Hp H Hex; simpl.
  - lia.
  - destruct H as (Hlt & Hreq & H).
    inversion Hex as [|? ? Hj Hex']; subst.
    destruct (IH (produced + List.length (delivered j))) as [S L];
      [lia | assumption | assumption |].
    rewrite length_app, S. lia.
Qed.


End BatchProperties.

(** ** The batch loop *)

(** C1, as the code has it: a terminal answer ([done] is true) whose list of
    generated videos is absent or empty makes the batch fail with an error
    naming the batch; the loop stops there with its variables as they were,
    so nothing is appended for that batch. *)
Theorem no_videos_is_failure total maxPerBatch prompt b scripts l s op0 s1 op :
  videosGenerated l < total ->
  submission b = Resolved op0 ->
  pollLoop (batchNumber l) (polls b) op0 0 0 basePollDelay
           (submitBatch total maxPerBatch prompt l s) = (s1, Ret op) ->
  responseVideos op = None \/ responseVideos op = Some [] ->
  done op = true /\
  batchLoop total maxPerBatch prompt (b :: scripts) l s =
  (s1, l,
   Threw (ErrorObj ("Video generation batch " ++ showNat (batchNumber l)
                      ++ " failed to produce any videos.")%string)).
Proof.
  intros Hlt Hsub Hpoll Hempty. split.
  - eapply pollLoop_ret_done; eassumption.
  - rewrite batchLoop_cons. apply Nat.ltb_lt in Hlt. rewrite Hlt.
    unfold runBatch. rewrite Hsub, Hpoll. unfold collectBatch.
    destruct Hempty as [-> | ->]; reflexivity.
Qed.

Lemma no_videos_is_failure_witness :
  done (finished []) = true /\
  batchLoop 5 2 "P" (answeredAtOnce (finished []) :: scriptsExact)
            initialLocals emptyPage =
  (submitBatch 5 2 "P" initialLocals emptyPage, initialLocals,
   Threw (ErrorObj "Video generation batch 1 failed to produce any videos.")).
Proof.
  apply (no_videos_is_failure 5 2 "P" (answeredAtOnce (finished []))
           scriptsExact initialLocals emptyPage (finished [])
           (submitBatch 5 2 "P" initialLocals emptyPage) (finished [])).
  - vm_compute; lia.
  - reflexivity.
  - reflexivity.
  - right; reflexivity.
Defined.

(** C1 as stated fails: a batch that is done with an entry carrying no URI
    has no usable URI, yet nothing is thrown; the batch returns an empty
    list, is counted as batch 1, and the loop submits batch 2. *)
Lemma no_usable_uri_is_not_failure :
  done (finished [None]) = true /\
  snd (runBatch 5 2 "P" initialLocals (Some (answeredAtOnce (finished [None])))
                emptyPage) = Ret [] /\
  exists s l,
    batchLoop 5 2 "P" scriptsNoUri initialLocals emptyPage = (s, l, Pending) /\
    allVideoUris l = [] /\ batchNumber l = 2 /\
    requestedCounts (calls s) = [2; 2].
Proof.
  split; [reflexivity|]. split; [reflexivity|].
  eexists; eexists. split; [reflexivity|]. repeat split.
Qed.




(** C3, as the code has it: for positive [total] and [maxPerBatch], every
    batch of a successful run asks for
    [min(maxPerBatch, total - producedSoFar)], which is at least 1, at most
    [maxPerBatch] and no more than what is still missing; the counts asked
    for add up to [total] when every batch delivers exactly what it was
    asked for. *)
Theorem requests_sum_to_total total maxPerBatch prompt scripts s s' l' :
  0 < total -> 0 < maxPerBatch ->
  batchLoop total maxPerBatch prompt scripts initialLocals s = (s', l', Ret tt) ->
  exists jobs,
    History total maxPerBatch prompt scripts initialLocals s jobs l' s' /\
    requestedCounts (calls s') =
      requestedCounts (calls s) ++ map requestedCount jobs /\
    sizedFrom total maxPerBatch 0 jobs /\
    Forall (fun j => 1 <= requestedCount j <= maxPerBatch) jobs /\
    (Forall (fun j => List.length (delivered j) = requestedCount j) jobs ->
     list_sum (map requestedCount jobs) = total).
Proof.
  intros Ht Hm H. apply batchLoop_history in H.
  destruct H as (jobs & s0 & Hh & -> & Hge).
  exists jobs. split; [exact Hh|].
  pose proof (History_sized _ _ _ _ _ _ _ _ _ Hh) as Hs.
  destruct (History_locals _ _ _ _ _ _ _ _ _ Hh) as (_ & G & _).
  destruct (History_requests _ _ _ _ _ _ _ _ _ Hh) as [C _].
  simpl in Hs, G. split; [exact C|]. split; [exact Hs|]. split.
  - eapply sized_bounds; eassumption.
  - intros Hex.
    destruct (sized_exact total maxPerBatch jobs 0) as [S L];
      [lia | exact Hs | exact Hex |].
    lia.
Qed.

Lemma requests_sum_to_total_witness :
  exists s' l' jobs,
    batchLoop 5 2 "P" scriptsExact initialLocals emptyPage = (s', l', Ret tt) /\
    requestedCounts (calls s') = map requestedCount jobs /\
    requestedCounts (calls s') = [2; 2; 1].
Proof.
  eexists; eexists.
  destruct (requests_sum_to_total 5 2 "P" scriptsExact emptyPage _ _
              ltac:(lia) ltac:(lia) eq_refl)
    as (jobs & _ & C & _).
  exists jobs. split; [reflexivity|]. split; [exact C | reflexivity].
Defined.

(** C3 as stated fails: when the second batch delivers 1 video for the 2
    asked, the run completes after asking for 2, 2 and 2, which is 6 and
    not 5. *)
Lemma requests_can_exceed_total :
  exists s' l',
    batchLoop 5 2 "P" scriptsShortSecond initialLocals emptyPage =
    (s', l', Ret tt) /\
    requestedCounts (calls s') = [2; 2; 2] /\
    list_sum (requestedCounts (calls s')) <> 5.
Proof.
  eexists; eexists. split; [reflexivity|]. split; [reflexivity|].
  vm_compute. discriminate.
Qed.

(** C7, as the code has it: when a batch fails the loop stops at once.
    The batches before it were run to the end and pushed ([jobs]); the
    accumulated results are exactly theirs; the failed batch made the last
    submission of the run.  The error names the batch only when the batch
    came back without videos: a failed poll is reported with its retry
    count and cause, and a rejected submission as it was thrown. *)
Theorem failed_batch_aborts total maxPerBatch prompt scripts s s' l' e :
  batchLoop total maxPerBatch prompt scripts initialLocals s = (s', l', Threw e) ->
  exists jobs s0 b,
    History total maxPerBatch prompt scripts initialLocals s jobs l' s0 /\
    nth_error scripts (List.length jobs) = Some b /\
    runBatch total maxPerBatch prompt l' (Some b) s0 = (s', Threw e) /\
    batchNumber l' = S (List.length jobs) /\
    allVideoUris l' = flat_map delivered jobs /\
    requestedCounts (calls s') =
      requestedCounts (calls s) ++ map requestedCount jobs
        ++ [videosInThisBatch total maxPerBatch (videosGenerated l')] /\
    resultsSection s' = resultsSection s /\
    (submission b = Rejected e \/
     (exists k e0,
         e = ErrorObj ("Polling failed after " ++ showNat k ++ " retries: "
                         ++ errorText e0)%string) \/
     e = ErrorObj ("Video generation batch " ++ showNat (S (List.length jobs))
                     ++ " failed to produce any videos.")%string).
Proof.
  intros H. apply batchLoop_history in H.
  destruct H as (jobs & s0 & Hh & Hlt & b & Hb & Hrun).
  exists jobs, s0, b.
  destruct (History_locals _ _ _ _ _ _ _ _ _ Hh) as (A & _ & N).
  destruct (History_requests _ _ _ _ _ _ _ _ _ Hh) as [C R].
  simpl in A, N.
  destruct (runBatch_extends _ _ _ _ _ _ _ _ Hrun)
    as (extra & (C1 & R1 & _) & E).
  repeat split; try assumption.
  - rewrite C1, requestedCounts_app, C. simpl. now rewrite E, <- app_assoc.
  - congruence.
  - rewrite <- N. eapply runBatch_threw; eassumption.
Qed.

Lemma failed_batch_aborts_witness :
  exists s' l' jobs,
    batchLoop 5 2 "P" scriptsFailSecond initialLocals emptyPage =
      (s', l', Threw (ErrorObj "Polling failed after 0 retries: Failed to fetch")) /\
    allVideoUris l' = flat_map delivered jobs /\
    allVideoUris l' = ["a"; "b"] /\
    requestedCounts (calls s') = [2; 2].
Proof.
  eexists; eexists.
  destruct (failed_batch_aborts 5 2 "P" scriptsFailSecond emptyPage _ _ _ eq_refl)
    as (jobs & s0 & b & _ & _ & _ & _ & A & _).
  exists jobs. split; [reflexivity|]. split; [exact A|]. split; reflexivity.
Defined.

(** C7 as stated fails: when a poll fails for good, the error is the same
    whether the batch that failed is the first or the second, so it does
    not identify the batch. *)
Lemma poll_failure_does_not_name_batch :
  exists s1 l1 s2 l2 e,
    batchLoop 5 2 "P" scriptsFailFirst initialLocals emptyPage =
      (s1, l1, Threw e) /\
    batchLoop 5 2 "P" scriptsFailSecond initialLocals emptyPage =
      (s2, l2, Threw e) /\
    batchNumber l1 = 1 /\ batchNumber l2 = 2 /\
    e = ErrorObj "Polling failed after 0 retries: Failed to fetch".
Proof.
  do 5 eexists. split; [reflexivity|]. split; [reflexivity|].
  repeat split.
Qed.

(** Entries that all carry a non-empty URI are kept as they come. *)
Lemma batchVideoUris_all (vs : list GeneratedVideo) :
  Forall (fun v => exists u, videoUri v = Some u /\ u <> "") vs ->
  map Some (batchVideoUris vs) = map videoUri vs.
Proof.
  unfold batchVideoUris. induction 1 as [|v vs [u [Hu Hne]] _ IH]; simpl.
  - reflexivity.
  - rewrite Hu. apply String.eqb_neq in Hne. rewrite Hne. simpl. now rewrite IH.
Qed.

(** A failed batch ends the whole run: the error is logged and shown, and
    no video is delivered. *)
Lemma generateVideos_aborts w userPrompt s ep s1 l e :
  userPrompt <> "" ->
  enhancement w = Some (Resolved ep) ->
  batchLoop totalVideosToGenerate maxVideosPerRequest ep (batches w)
            initialLocals (pageBeforeBatches w userPrompt s) = (s1, l, Threw e) ->
  generateVideos w userPrompt s =
  (setLoading false ""
     (setStatus ("An error occurred: " ++ errorText e)%string
        (consoleError ("Video generation failed: " ++ errorText e)%string s1)),
   Ret tt).
Proof.
  intros Hp He Hloop.
  assert (Hne : (userPrompt =? "")%string = false) by now apply String.eqb_neq.
  unfold generateVideos, tryBlock. rewrite Hne.
  unfold pageBeforeBatches in Hloop.
  destruct (enhancePrompt w userPrompt _) as [s0 r] eqn:Hen.
  assert (r = Ret ep).
  { unfold enhancePrompt in Hen. rewrite He in Hen. now inversion Hen. }
  subst r. simpl in Hloop. now rewrite Hloop.
Qed.




(** ** Delivery *)

Lemma insertByTime_perm time i l :
  Permutation (insertByTime time i l) (i :: l).
Proof.
  induction l as [|j l IH]; simpl.
  - apply Permutation_refl.
  - destruct (time i <? time j)%nat.
    + apply Permutation_refl.
    + eapply perm_trans; [apply perm_skip, IH | apply perm_swap].
Qed.

(** Every delivery settles exactly once. *)
Lemma settleOrder_perm time n : Permutation (settleOrder time n) (seq 0 n).
Proof.
  unfold settleOrder. induction (seq 0 n) as [|i l IH]; simpl.
  - apply Permutation_refl.
  - eapply perm_trans; [apply insertByTime_perm | apply perm_skip, IH].
Qed.

Lemma settleOrder_In time n i : In i (settleOrder time n) <-> i < n.
Proof.
  split; intros H.
  - apply (Permutation_in _ (settleOrder_perm time n)) in H.
    apply in_seq in H. lia.
  - apply (Permutation_in _ (Permutation_sym (settleOrder_perm time n))).
    apply in_seq. lia.
Qed.

Lemma settleVideo_page index answer s :
  settleVideo index answer s =
  {| statusMessage := statusMessage s;
     resultsSection := resultsSection s ++ [childOf index answer];
     generateButtonDisabled := generateButtonDisabled s;
     statusSectionDisplay := statusSectionDisplay s;
     alerts := alerts s;
     consoleErrors := consoleErrors s ++ errorLogOf index answer;
     downloads := downloads s ++ downloadOf index answer;
     calls := calls s |}.
Proof.
  destruct s; destruct answer; simpl; unfold catchVideo, consoleError, setResults,
    clickDownload; simpl; rewrite ?app_nil_r; reflexivity.
Qed.

Lemma startDeliveries_page w uris : forall s,
  statusMessage (startDeliveries w uris s) = statusMessage s /\
  resultsSection (startDeliveries w uris s) = resultsSection s /\
  consoleErrors (startDeliveries w uris s) = consoleErrors s /\
  downloads (startDeliveries w uris s) = downloads s /\
  calls (startDeliveries w uris s) =
    calls s ++ map (fun u => CallFetch (u ++ "&key=" ++ apiKey w)%string) uris.
Proof.
  unfold startDeliveries.
  induction uris as [|u uris IH]; intros s; cbn [fold_left map].
  - now rewrite app_nil_r.
  - destruct (IH (call (CallFetch (u ++ "&key=" ++ apiKey w)%string) s))
      as (M & R & E & D & C).
    rewrite M, R, E, D, C. simpl. now rewrite <- app_assoc.
Qed.

(** The deliveries settle one after the other; each adds what its own
    answer determines and touches nothing else. *)
Lemma settle_fold w (uris : list string) order : forall s,
  Forall (fun i => i < List.length uris) order ->
  let s' :=
    fold_left
      (fun s i =>
         match nth_error uris i with
         | Some _ => settleVideo (S i) (fetches w i) s
         | None => s
         end) order s in
  statusMessage s' = statusMessage s /\
  calls s' = calls s /\
  resultsSection s' =
    resultsSection s ++ map (fun i => childOf (S i) (fetches w i)) order /\
  consoleErrors s' =
    consoleErrors s ++ flat_map (fun i => errorLogOf (S i) (fetches w i)) order /\
  downloads s' =
    downloads s ++ flat_map (fun i => downloadOf (S i) (fetches w i)) order.
Proof.
  induction order as [|i order IH]; intros s Hall; simpl.
  - now rewrite !app_nil_r.
  - inversion Hall as [|? ? Hi Hall']; subst.
    destruct (nth_error uris i) eqn:Hn.
    + destruct (IH (settleVideo (S i) (fetches w i) s) Hall')
        as (M & C & R & E & D).
      rewrite M, C, R, E, D, settleVideo_page. simpl.
      now rewrite <- !app_assoc.
    + apply nth_error_None in Hn. lia.
Qed.

Lemma deliverAll_page w uris s :
  let s' := deliverAll w uris s in
  let order := settleOrder (fetchTime w) (List.length uris) in
  statusMessage s' = statusMessage s /\
  resultsSection s' =
    resultsSection s ++ map (fun i => childOf (S i) (fetches w i)) order /\
  consoleErrors s' =
    consoleErrors s ++ flat_map (fun i => errorLogOf (S i) (fetches w i)) order /\
  downloads s' =
    downloads s ++ flat_map (fun i => downloadOf (S i) (fetches w i)) order.
Proof.
  unfold deliverAll.
  destruct (settle_fold w uris (settleOrder (fetchTime w) (List.length uris))
              (startDeliveries w uris s)) as (M & _ & R & E & D).
  { apply Forall_forall. intros i Hi. now apply settleOrder_In in Hi. }
  destruct (startDeliveries_page w uris s) as (M0 & R0 & E0 & D0 & _).
  simpl. rewrite M, R, E, D, M0, R0, E0, D0. repeat split.
Qed.



(** ** The empty prompt *)

(** C10: on the empty prompt [generateVideos] alerts and returns: no call is
    made (no enhancement, no submission, no poll), and the results section,
    the status line and the button are left as they were. *)
Theorem empty_prompt_returns_at_once w s :
  generateVideos w "" s = (alert "Please enter a video description." s, Ret tt) /\
  calls (fst (generateVideos w "" s)) = calls s /\
  resultsSection (fst (generateVideos w "" s)) = resultsSection s /\
  statusMessage (fst (generateVideos w "" s)) = statusMessage s /\
  generateButtonDisabled (fst (generateVideos w "" s)) = generateButtonDisabled s /\
  alerts (fst (generateVideos w "" s)) =
    alerts s ++ ["Please enter a video description."].
Proof. repeat split. Qed.


(** * Further properties of the poll loop *)

Lemma polled_waits (extra : list Call) :
  Forall waitOrPoll extra ->
  requestedCounts extra = [] /\ submittedPrompts extra = [] /\ fetched extra = [].
Proof.
  induction 1 as [|c cs Hc _ IH]; [repeat split|].
  destruct c; simpl in Hc; try contradiction; exact IH.
Qed.

(** The calls of the poll loop, whatever the script: only waits and polls,
    as many of the one as of the other; the handles polled are not done and
    are the handle the loop was given or an earlier answer; the waits are
    20, 40 or 60 seconds when the loop starts from one of these. *)
Lemma pollLoop_discipline ps : forall n op i r d s s' res,
  pollLoop n ps op i r d s = (s', res) ->
  (d = 20000 \/ d = 40000 \/ d = 60000)%Z ->
  exists extra,
    Extends s s' extra /\
    Forall waitOrPoll extra /\
    Forall (fun o => done o = false /\ (o = op \/ In (Resolved o) ps))
           (polled extra) /\
    Forall (fun w => w = 20000 \/ w = 40000 \/ w = 60000)%Z (sleeps extra) /\
    List.length (sleeps extra) = List.length (polled extra).
Proof.
  assert (Hstep : forall d, (d = 20000 \/ d = 40000 \/ d = 60000)%Z ->
            (Z.min maxPollDelay (d * 2) = 20000 \/
             Z.min maxPollDelay (d * 2) = 40000 \/
             Z.min maxPollDelay (d * 2) = 60000)%Z)
    by (unfold maxPollDelay; intros; lia).
  assert (Hwiden : forall (a b : Operation) q qs l,
            Forall (fun o => done o = false /\ (o = b \/ In (Resolved o) qs)) l ->
            (b = a \/ q = Resolved b) ->
            Forall (fun o => done o = false /\ (o = a \/ In (Resolved o) (q :: qs))) l).
  { intros a b q qs l Hl Hop. eapply Forall_impl; [|exact Hl].
    intros o [Ho [->|Hin]]; split; try assumption.
    - destruct Hop as [->| ->]; [now left | right; now left].
    - right; now right. }
  induction ps as [|p ps IH]; intros n op i r d s s' res H Hd;
    destruct (done op) eqn:Hdone.
  - rewrite pollLoop_done in H by assumption. inversion H; subst.
    exists []. split; [apply Extends_refl|]. simpl. repeat split; constructor.
  - rewrite pollLoop_unanswered in H by assumption. inversion H; subst.
    eexists. split; [apply Extends_iteration|]. simpl.
    split; [repeat constructor|].
    split; [constructor; [split; [assumption | now left] | constructor]|].
    split; [constructor; [assumption | constructor] | reflexivity].
  - rewrite pollLoop_done in H by assumption. inversion H; subst.
    exists []. split; [apply Extends_refl|]. simpl. repeat split; constructor.
  - destruct p as [op'|e].
    + rewrite pollLoop_resolved in H by assumption.
      apply IH in H; [|now left].
      destruct H as (extra & X & W & P & S & L).
      exists ([CallSleep d; CallPoll op] ++ extra). split.
      { eapply Extends_trans; [apply Extends_iteration | exact X]. }
      simpl. repeat split.
      * repeat constructor; assumption.
      * constructor; [split; [assumption | now left]|].
        apply (Hwiden op op'); [exact P | now right].
      * constructor; assumption.
      * now rewrite L.
    + rewrite pollLoop_rejected in H by assumption.
      unfold onPollFailure in H.
      destruct (isRateLimitError e && (r <? maxPollRetries)%nat).
      * apply IH in H; [|now apply Hstep].
        destruct H as (extra & X & W & P & S & L).
        exists ([CallSleep d; CallPoll op] ++ extra). split.
        { eapply Extends_trans; [|exact X].
          apply (Extends_trans _ _ _ _ [] (Extends_iteration n i op d s)).
          apply Extends_setStatus. }
        simpl. repeat split.
        -- repeat constructor; assumption.
        -- constructor; [split; [assumption | now left]|].
           apply (Hwiden op op); [exact P | now left].
        -- constructor; assumption.
        -- now rewrite L.
      * inversion H; subst.
        eexists. split; [apply Extends_iteration|]. simpl.
    split; [repeat constructor|].
    split; [constructor; [split; [assumption | now left] | constructor]|].
    split; [constructor; [assumption | constructor] | reflexivity].
Qed.

(** X1: the poll loop never polls a handle that is done, and never a handle
    it made up or got from a failed poll: every handle it polls is the one
    returned by the submission or the answer of an earlier poll. *)
Theorem polls_only_unfinished_handles n ps op i r s s' res :
  pollLoop n ps op i r basePollDelay s = (s', res) ->
  exists extra,
    calls s' = calls s ++ extra /\
    Forall (fun o => done o = false /\ (o = op \/ In (Resolved o) ps))
           (polled extra).
Proof.
  intros H. apply pollLoop_discipline in H; [|now left].
  destruct H as (extra & (C & _) & _ & P & _). now exists extra.
Qed.

Lemma polls_only_unfinished_handles_witness :
  exists extra,
    calls (fst (pollLoop 1 (polls (nth 0 scriptsExact (answeredAtOnce running)))
                         running 0 0 basePollDelay emptyPage)) =
      calls emptyPage ++ extra /\
    polled extra = [running; running; running].
Proof.
  destruct (polls_only_unfinished_handles 1
              (polls (nth 0 scriptsExact (answeredAtOnce running)))
              running 0 0 emptyPage _ _ eq_refl) as (extra & C & _).
  exists extra. split; [exact C|].
  vm_compute in C. inversion C. reflexivity.
Defined.



Lemma pollLoop_threw_bound ps : forall n op i r d s s' e,
  r <= maxPollRetries ->
  pollLoop n ps op i r d s = (s', Threw e) ->
  exists k e0,
    k <= maxPollRetries /\
    In (Rejected e0) ps /\
    (isRateLimitError e0 = false \/ k = maxPollRetries) /\
    e = ErrorObj ("Polling failed after " ++ showNat k ++ " retries: "
                    ++ errorText e0)%string.
Proof.
  induction ps as [|p ps IH]; intros n op i r d s s' e Hr H;
    destruct (done op) eqn:Hd.
  - rewrite pollLoop_done in H by assumption. discriminate.
  - rewrite pollLoop_unanswered in H by assumption. discriminate.
  - rewrite pollLoop_done in H by assumption. discriminate.
  - destruct p as [op1|e1].
    + rewrite pollLoop_resolved in H by assumption.
      apply IH in H; [|lia].
      destruct H as (k & e0 & Hk & Hin & Hc & He).
      exists k, e0. repeat split; try assumption. now right.
    + rewrite pollLoop_rejected in H by assumption.
      unfold onPollFailure in H.
      destruct (isRateLimitError e1) eqn:Hrl;
        destruct (r <? maxPollRetries)%nat eqn:Hlt; simpl in H.
      * apply Nat.ltb_lt in Hlt. apply IH in H; [|lia].
        destruct H as (k & e0 & Hk & Hin & Hc & He).
        exists k, e0. repeat split; try assumption. now right.
      * apply Nat.ltb_ge in Hlt. inversion H; subst.
        exists r, e1. repeat split; try assumption; [now left | right; lia].
      * inversion H; subst.
        exists r, e1. repeat split; try assumption; [now left | now left].
      * inversion H; subst.
        exists r, e1. repeat split; try assumption; [now left | now left].
Qed.

(** X3: when the poll loop of a batch throws, the error is "Polling failed
    after k retries: cause" where the cause is one of the failures the
    service answered with, k is at most 5, and either the cause is not a
    rate-limit error or k is exactly 5. *)
Theorem poll_error_reports_cause n ps op i s s' e :
  pollLoop n ps op i 0 basePollDelay s = (s', Threw e) ->
  exists k e0,
    k <= 5 /\
    In (Rejected e0) ps /\
    (isRateLimitError e0 = false \/ k = 5) /\
    e = ErrorObj ("Polling failed after " ++ showNat k ++ " retries: "
                    ++ errorText e0)%string.
Proof.
  intros H. eapply pollLoop_threw_bound; [|exact H]. unfold maxPollRetries; lia.
Qed.

Lemma poll_error_reports_cause_witness :
  exists k e0,
    k <= 5 /\
    In (Rejected e0)
       [Rejected tooManyRequests; Resolved running; Rejected networkDown] /\
    (isRateLimitError e0 = false \/ k = 5) /\
    ErrorObj "Polling failed after 0 retries: Failed to fetch" =
    ErrorObj ("Polling failed after " ++ showNat k ++ " retries: "
                ++ errorText e0)%string.
Proof.
  exact (poll_error_reports_cause 1
           [Rejected tooManyRequests; Resolved running; Rejected networkDown]
           running 0 emptyPage _ _ eq_refl).
Defined.

(** X4: the retry budget is per streak of failures, not per batch: any
    number of streaks of at most five rate-limit failures, each followed by
    an answer, is tolerated; when the last answer is done, the loop returns
    it. *)
Theorem budget_is_per_streak streaks : forall n es opf rest op i s,
  done op = false ->
  Forall (fun k => Forall (fun e => isRateLimitError e = true) (fst k) /\
                   List.length (fst k) <= maxPollRetries /\
                   done (snd k) = false) streaks ->
  Forall (fun e => isRateLimitError e = true) es ->
  List.length es <= maxPollRetries ->
  done opf = true ->
  exists s',
    pollLoop n (streaksScript streaks ++ map Rejected es ++ Resolved opf :: rest)
             op i 0 basePollDelay s = (s', Ret opf).
Proof.
  induction streaks as [|[es1 op1] streaks IH];
    intros n es opf rest op i s Hd Hst Hes Hn Hf.
  - simpl app.
    destruct (pollLoop_recovers es n rest op opf i basePollDelay s Hd Hes Hn)
      as [s1 [E _]].
    exists s1. rewrite E. now apply pollLoop_done.
  - inversion Hst as [|? ? (Hes1 & Hn1 & Hd1) Hst']; subst. simpl in *.
    rewrite <- !app_assoc. simpl app.
    destruct (pollLoop_recovers es1 n
                (streaksScript streaks ++ map Rejected es ++ Resolved opf :: rest)
                op op1 i basePollDelay s Hd Hes1 Hn1) as [s1 [E _]].
    rewrite E. now apply IH.
Qed.

Lemma budget_is_per_streak_witness :
  exists s',
    pollLoop 1
      (streaksScript [(repeat tooManyRequests 5, running);
                      (repeat quotaExhausted 5, running)]
         ++ map Rejected (repeat tooManyRequests 3)
         ++ [Resolved (finished [Some "u"])])
      running 0 0 basePollDelay emptyPage = (s', Ret (finished [Some "u"])).
Proof.
  apply (budget_is_per_streak
           [(repeat tooManyRequests 5, running); (repeat quotaExhausted 5, running)]
           1 (repeat tooManyRequests 3) (finished [Some "u"]) [] running 0 emptyPage).
  - reflexivity.
  - repeat constructor.
  - repeat constructor.
  - vm_compute; lia.
  - reflexivity.
Defined.

Lemma rate_limit_message_includes (x : string) :
  includes ("Rate limit reached. Waiting " ++ x)%string "Rate limit" = true.
Proof.
  apply includes_spec.
  exists ""%string, (" reached. Waiting " ++ x)%string. reflexivity.
Qed.

Lemma pollLoop_warning_kept ps : forall n op i r d s s' res,
  includes (statusMessage s) "Rate limit" = true ->
  pollLoop n ps op i r d s = (s', res) ->
  includes (statusMessage s') "Rate limit" = true.
Proof.
  assert (Hkeep : forall n i op d s,
            includes (statusMessage s) "Rate limit" = true ->
            sleepThenPoll op d (announcePoll n i s) = sleepThenPoll op d s).
  { intros n i op d s Hs. unfold announcePoll. now rewrite Hs. }
  induction ps as [|p ps IH]; intros n op i r d s s' res Hs H;
    destruct (done op) eqn:Hd.
  - rewrite pollLoop_done in H by assumption. now inversion H; subst.
  - rewrite pollLoop_unanswered, Hkeep in H by assumption.
    now inversion H; subst.
  - rewrite pollLoop_done in H by assumption. now inversion H; subst.
  - destruct p as [op'|e].
    + rewrite pollLoop_resolved, Hkeep in H by assumption.
      eapply IH; [|exact H]. exact Hs.
    + rewrite pollLoop_rejected, Hkeep in H by assumption.
      unfold onPollFailure in H.
      destruct (isRateLimitError e && (r <? maxPollRetries)%nat).
      * eapply IH; [|exact H]. apply rate_limit_message_includes.
      * now inversion H; subst.
Qed.

(** X5: once a rate-limit warning has been shown during a batch, it stays
    on the status line until the poll loop of that batch ends: the progress
    messages do not come back, even when later polls succeed. *)
Theorem warning_stays_until_batch_ends n e ps op i r d s s' res :
  done op = false ->
  isRateLimitError e = true ->
  r < maxPollRetries ->
  pollLoop n (Rejected e :: ps) op i r d s = (s', res) ->
  includes (statusMessage s') "Rate limit" = true.
Proof.
  intros Hd He Hr H.
  rewrite pollLoop_rejected, onPollFailure_retry in H by assumption.
  eapply pollLoop_warning_kept; [|exact H]. apply rate_limit_message_includes.
Qed.

Lemma warning_stays_until_batch_ends_witness :
  statusMessage
    (fst (pollLoop 1 [Rejected tooManyRequests; Resolved running;
                      Resolved running; Resolved (finished [Some "u"])]
                   running 0 0 basePollDelay emptyPage)) =
    "Rate limit reached. Waiting 40s before retrying..." /\
  includes
    (statusMessage
       (fst (pollLoop 1 [Rejected tooManyRequests; Resolved running;
                         Resolved running; Resolved (finished [Some "u"])]
                      running 0 0 basePollDelay emptyPage)))
    "Rate limit" = true.
Proof.
  split; [reflexivity|].
  eapply (warning_stays_until_batch_ends 1 tooManyRequests
            [Resolved running; Resolved running; Resolved (finished [Some "u"])]
            running 0 0 basePollDelay emptyPage).
  - reflexivity.
  - reflexivity.
  - vm_compute; lia.
  - apply surjective_pairing.
Defined.


(** * Further properties of a run *)

Lemma submittedPrompts_app (a b : list Call) :
  submittedPrompts (a ++ b) = submittedPrompts a ++ submittedPrompts b.
Proof. apply flat_map_app. Qed.

Lemma fetched_app (a b : list Call) : fetched (a ++ b) = fetched a ++ fetched b.
Proof. apply flat_map_app. Qed.

(** The calls of one batch: its submission, then only waits and polls. *)
Lemma runBatch_calls total maxPerBatch prompt l script s s' res :
  runBatch total maxPerBatch prompt l script s = (s', res) ->
  exists extra,
    Extends s s'
      (CallSubmit prompt (videosInThisBatch total maxPerBatch (videosGenerated l))
         :: extra) /\
    Forall waitOrPoll extra.
Proof.
  unfold runBatch. intros H.
  pose proof (Extends_submitBatch total maxPerBatch prompt l s) as X0.
  destruct script as [b|].
  - destruct (submission b) as [op|e].
    + destruct (pollLoop _ _ _ _ _ _ _) as [s1 r] eqn:P.
      apply pollLoop_discipline in P; [|now left].
      destruct P as (extra & X & W & _).
      exists extra. split; [|exact W].
      assert (s' = s1) by (destruct r; now inversion H). subst s1.
      exact (Extends_trans _ _ _ _ _ X0 X).
    + inversion H; subst. exists []. now split.
  - inversion H; subst. exists []. now split.
Qed.

(** The calls of the batch loop: submissions of the given prompt, waits and
    polls; nothing is fetched, and the page keeps all but its status line. *)
Lemma batchLoop_calls total maxPerBatch prompt scripts : forall l s s' l' res,
  batchLoop total maxPerBatch prompt scripts l s = (s', l', res) ->
  exists extra,
    Extends s s' extra /\
    fetched extra = [] /\
    Forall (eq prompt) (submittedPrompts extra).
Proof.
  induction scripts as [|b scripts IH]; intros l s s' l' res H;
    [rewrite batchLoop_nil in H | rewrite batchLoop_cons in H];
    destruct (videosGenerated l <? total)%nat.
  - inversion H; subst. eexists. split; [apply Extends_submitBatch|].
    split; [reflexivity | repeat constructor].
  - inversion H; subst. exists []. split; [apply Extends_refl|].
    split; [reflexivity | constructor].
  - destruct (runBatch total maxPerBatch prompt l (Some b) s)
      as [s1 r] eqn:Hrun.
    apply runBatch_calls in Hrun. destruct Hrun as (extra1 & X1 & W1).
    destruct (polled_waits _ W1) as (_ & P1 & F1).
    assert (Hone : fetched (CallSubmit prompt
                      (videosInThisBatch total maxPerBatch (videosGenerated l))
                      :: extra1) = [] /\
                   Forall (eq prompt)
                     (submittedPrompts (CallSubmit prompt
                        (videosInThisBatch total maxPerBatch (videosGenerated l))
                        :: extra1))).
    { simpl. rewrite P1. split; [exact F1 | repeat constructor]. }
    destruct Hone as [F P].
    destruct r as [uris|e|].
    + apply IH in H. destruct H as (extra & X & F' & P').
      eexists. split; [exact (Extends_trans _ _ _ _ _ X1 X)|].
      rewrite fetched_app, submittedPrompts_app, F, F'.
      split; [reflexivity | now apply Forall_app].
    + inversion H; subst. eexists. split; [exact X1|]. now split.
    + inversion H; subst. eexists. split; [exact X1|]. now split.
  - inversion H; subst. exists []. split; [apply Extends_refl|].
    split; [reflexivity | constructor].
Qed.

Lemma pageBeforeBatches_page w userPrompt s :
  exists contents,
    calls (pageBeforeBatches w userPrompt s) = calls s ++ [CallEnhance contents] /\
    resultsSection (pageBeforeBatches w userPrompt s) = [] /\
    generateButtonDisabled (pageBeforeBatches w userPrompt s) = true /\
    statusSectionDisplay (pageBeforeBatches w userPrompt s) = "flex"%string /\
    alerts (pageBeforeBatches w userPrompt s) = alerts s /\
    consoleErrors (pageBeforeBatches w userPrompt s) = consoleErrors s /\
    downloads (pageBeforeBatches w userPrompt s) = downloads s.
Proof.
  unfold pageBeforeBatches, enhancePrompt. eexists.
  destruct (enhancement w) as [[t|e]|]; simpl; repeat split.
Qed.

Lemma settle_fold_frame w (uris : list string) order : forall s,
  let s' :=
    fold_left
      (fun s i =>
         match nth_error uris i with
         | Some _ => settleVideo (S i) (fetches w i) s
         | None => s
         end) order s in
  generateButtonDisabled s' = generateButtonDisabled s /\
  statusSectionDisplay s' = statusSectionDisplay s /\
  alerts s' = alerts s /\
  calls s' = calls s.
Proof.
  induction order as [|i order IH]; intros s; simpl; [repeat split|].
  destruct (nth_error uris i).
  - destruct (IH (settleVideo (S i) (fetches w i) s)) as (B & D & A & C).
    rewrite B, D, A, C, settleVideo_page. repeat split.
  - apply IH.
Qed.

Lemma startDeliveries_frame w uris : forall s,
  generateButtonDisabled (startDeliveries w uris s) = generateButtonDisabled s /\
  statusSectionDisplay (startDeliveries w uris s) = statusSectionDisplay s /\
  alerts (startDeliveries w uris s) = alerts s.
Proof.
  unfold startDeliveries.
  induction uris as [|u uris IH]; intros s; cbn [fold_left]; [repeat split|].
  destruct (IH (call (CallFetch (u ++ "&key=" ++ apiKey w)%string) s))
    as (B & D & A).
  rewrite B, D, A. repeat split.
Qed.

Lemma deliverAll_frame w uris s :
  generateButtonDisabled (deliverAll w uris s) = generateButtonDisabled s /\
  statusSectionDisplay (deliverAll w uris s) = statusSectionDisplay s /\
  alerts (deliverAll w uris s) = alerts s /\
  calls (deliverAll w uris s) =
    calls s ++ map (fun u => CallFetch (u ++ "&key=" ++ apiKey w)%string) uris.
Proof.
  unfold deliverAll.
  destruct (settle_fold_frame w uris (settleOrder (fetchTime w) (List.length uris))
              (startDeliveries w uris s)) as (B & D & A & C).
  destruct (startDeliveries_frame w uris s) as (B0 & D0 & A0).
  destruct (startDeliveries_page w uris s) as (_ & _ & _ & _ & C0).
  simpl in *. rewrite B, D, A, C, B0, D0, A0, C0. repeat split.
Qed.

(** The ways [generateVideos] can go on a prompt that is not empty. *)
Lemma generateVideos_cases w userPrompt s s' r :
  userPrompt <> ""%string ->
  generateVideos w userPrompt s = (s', r) ->
  let s0 := pageBeforeBatches w userPrompt s in
  (enhancement w = None /\ r = Pending /\ s' = s0) \/
  (exists e, enhancement w = Some (Rejected e) /\ r = Ret tt /\
             s' = afterCatch e s0) \/
  (exists ep s1 l res,
      enhancement w = Some (Resolved ep) /\
      batchLoop totalVideosToGenerate maxVideosPerRequest ep (batches w)
                initialLocals s0 = (s1, l, res) /\
      match res with
      | Ret _ =>
          r = Ret tt /\
          s' = setLoading false ""
                 (deliverAll w (allVideoUris l)
                    (setStatus
                       "Finalizing all videos and preparing for download..." s1))
      | Threw e => r = Ret tt /\ s' = afterCatch e s1
      | Pending => r = Pending /\ s' = s1
      end).
Proof.
  intros Hp H.
  assert (Hne : (userPrompt =? "")%string = false) by now apply String.eqb_neq.
  unfold generateVideos, tryBlock in H. rewrite Hne in H.
  unfold pageBeforeBatches. cbv zeta.
  destruct (enhancePrompt w userPrompt _) as [s0 r0] eqn:Hen.
  unfold enhancePrompt in Hen.
  destruct (enhancement w) as [[ep|e]|]; inversion Hen; subst s0 r0; clear Hen.
  - right; right.
    match type of H with
    | context [batchLoop ?a ?b ?c ?d ?e ?f] =>
        destruct (batchLoop a b c d e f) as [[s1 l] res] eqn:Hloop
    end.
    exists ep, s1, l, res. split; [reflexivity|]. split; [exact Hloop|].
    destruct res as [u|e|]; inversion H; subst; split; reflexivity.
  - right; left. exists e. inversion H; subst. repeat split.
  - left. inversion H; subst. repeat split.
Qed.

(** X6: on a prompt that is not empty, the button is disabled and the
    status section shown for as long as the run is waiting on the service,
    and whenever the run ends, on success or on any failure, the button is
    enabled again and the status section hidden. *)
Theorem button_follows_the_run w userPrompt s s' r :
  userPrompt <> ""%string ->
  generateVideos w userPrompt s = (s', r) ->
  match r with
  | Ret _ => generateButtonDisabled s' = false /\
             statusSectionDisplay s' = "none"%string
  | Pending => generateButtonDisabled s' = true /\
               statusSectionDisplay s' = "flex"%string
  | Threw _ => False
  end.
Proof.
  intros Hp H.
  destruct (pageBeforeBatches_page w userPrompt s)
    as (contents & _ & _ & B0 & D0 & _).
  destruct (generateVideos_cases w userPrompt s s' r Hp H)
    as [(_ & -> & ->) | [(e & _ & -> & ->) | (ep & s1 & l & res & _ & Hloop & Hres)]].
  - now split.
  - now split.
  - apply batchLoop_calls in Hloop.
    destruct Hloop as (extra & (_ & _ & B & D & _) & _).
    destruct res as [u|e|]; destruct Hres as [-> ->].
    + now split.
    + now split.
    + rewrite B, D. now split.
Qed.

Lemma button_follows_the_run_witness :
  generateButtonDisabled (fst (generateVideos worldFailSecond "a cat" usedPage))
    = false /\
  statusSectionDisplay (fst (generateVideos worldFailSecond "a cat" usedPage))
    = "none"%string.
Proof.
  exact (button_follows_the_run worldFailSecond "a cat" usedPage _ (Ret tt)
           ltac:(discriminate) eq_refl).
Defined.

(** X7: a finished run is all or nothing.  Either the batches all went
    through, the status line is the finalizing message and the results
    section holds one child per accumulated URI, at least five, with one
    fetch each; or the run failed, the status line shows the error, the
    results section is empty, nothing was fetched and nothing downloaded,
    whatever the earlier batches had produced. *)
Theorem finished_run_is_all_or_nothing w userPrompt s s' :
  userPrompt <> ""%string ->
  generateVideos w userPrompt s = (s', Ret tt) ->
  (statusMessage s' = "Finalizing all videos and preparing for download..."%string /\
   totalVideosToGenerate <= List.length (resultsSection s') /\
   List.length (fetched (calls s')) =
     List.length (fetched (calls s)) + List.length (resultsSection s'))
  \/
  (exists e,
      statusMessage s' = ("An error occurred: " ++ errorText e)%string /\
      resultsSection s' = [] /\
      fetched (calls s') = fetched (calls s) /\
      downloads s' = downloads s /\
      consoleErrors s' =
        consoleErrors s ++ [("Video generation failed: " ++ errorText e)%string]).
Proof.
  intros Hp H.
  destruct (pageBeforeBatches_page w userPrompt s)
    as (contents & C0 & R0 & _ & _ & _ & E0 & W0).
  destruct (generateVideos_cases w userPrompt s s' (Ret tt) Hp H)
    as [(_ & Hr & _) | [(e & _ & _ & ->) | (ep & s1 & l & res & _ & Hloop & Hres)]].
  - discriminate.
  - right. exists e. simpl. rewrite R0, C0, W0, E0, fetched_app. simpl.
    rewrite app_nil_r. repeat split.
  - pose proof (batchLoop_calls _ _ _ _ _ _ _ _ _ Hloop)
      as (extra & (C & R & _ & _ & _ & E & W) & F & _).
    destruct res as [u|e|]; destruct Hres as [Hr ->]; [|clear Hr|discriminate].
    + left.
      apply batchLoop_history in Hloop.
      destruct Hloop as (jobs & s0' & Hh & _ & Hge).
      destruct (History_locals _ _ _ _ _ _ _ _ _ Hh) as (A & G & _).
      simpl in A, G.
      set (sF := setStatus "Finalizing all videos and preparing for download..." s1).
      destruct (deliverAll_page w (allVideoUris l) sF) as (M & RR & _ & _).
      destruct (deliverAll_frame w (allVideoUris l) sF) as (_ & _ & _ & CC).
      simpl. rewrite M, RR, CC. simpl. rewrite R, R0. simpl.
      rewrite length_map,
        (Permutation_length (settleOrder_perm (fetchTime w)
                               (List.length (allVideoUris l)))), length_seq.
      split; [reflexivity|]. split; [rewrite A; lia|].
      rewrite C, C0, !fetched_app, F. simpl. rewrite !app_nil_r, length_app.
      f_equal. clear. induction (allVideoUris l) as [|u us IH]; simpl; congruence.
    + right. exists e. simpl. rewrite R, R0, W, W0, E, E0, C, C0, !fetched_app, F.
      simpl. rewrite !app_nil_r. repeat split.
Qed.

Lemma finished_run_is_all_or_nothing_witness :
  exists e,
    statusMessage (fst (generateVideos worldFailSecond "a cat" usedPage)) =
      ("An error occurred: " ++ errorText e)%string /\
    resultsSection (fst (generateVideos worldFailSecond "a cat" usedPage)) = [].
Proof.
  destruct (finished_run_is_all_or_nothing worldFailSecond "a cat" usedPage _
              ltac:(discriminate) eq_refl) as [(M & _)|(e & M & R & _)].
  - vm_compute in M. discriminate.
  - exists e. split; [exact M | exact R].
Defined.

(** X8: every submission of a run carries the prompt returned by the
    enhancement, never the prompt the user typed. *)
Theorem submissions_use_enhanced_prompt w userPrompt s s' r ep :
  userPrompt <> ""%string ->
  enhancement w = Some (Resolved ep) ->
  generateVideos w userPrompt s = (s', r) ->
  exists extra,
    calls s' = calls s ++ extra /\
    Forall (eq ep) (submittedPrompts extra).
Proof.
  intros Hp He H.
  destruct (pageBeforeBatches_page w userPrompt s) as (contents & C0 & _).
  destruct (generateVideos_cases w userPrompt s s' r Hp H)
    as [(He' & _) | [(e & He' & _) | (ep' & s1 & l & res & He' & Hloop & Hres)]];
    try congruence.
  assert (ep' = ep) by congruence. subst ep'.
  apply batchLoop_calls in Hloop. destruct Hloop as (extra & (C & _) & _ & P).
  destruct res as [u|e|]; destruct Hres as [_ ->].
  - destruct (deliverAll_frame w (allVideoUris l)
                (setStatus "Finalizing all videos and preparing for download..." s1))
      as (_ & _ & _ & CC).
    eexists. split.
    + simpl. rewrite CC. simpl. rewrite C, C0, <- !app_assoc. reflexivity.
    + rewrite !submittedPrompts_app. simpl.
      apply Forall_app. split; [exact P|].
      clear. induction (allVideoUris l); simpl; [constructor | assumption].
  - eexists. split.
    + simpl. rewrite C, C0, <- app_assoc. reflexivity.
    + rewrite submittedPrompts_app. exact P.
  - eexists. split.
    + rewrite C, C0, <- app_assoc. reflexivity.
    + rewrite submittedPrompts_app. exact P.
Qed.

Lemma submissions_use_enhanced_prompt_witness :
  exists extra,
    calls (fst (generateVideos worldThirdFails "a cat" emptyPage)) =
      calls emptyPage ++ extra /\
    submittedPrompts extra = ["P"; "P"; "P"]%string.
Proof.
  destruct (submissions_use_enhanced_prompt worldThirdFails "a cat" emptyPage
              _ _ "P" ltac:(discriminate) eq_refl (surjective_pairing _))
    as (extra & C & _).
  exists extra. split; [exact C|].
  vm_compute in C. inversion C. reflexivity.
Defined.

(** X9: when the enhancement is refused, the run ends there: the error is
    shown and logged, and no batch is submitted, nothing polled, nothing
    fetched. *)
Theorem enhancement_failure_aborts w userPrompt s e :
  userPrompt <> ""%string ->
  enhancement w = Some (Rejected e) ->
  exists s' contents,
    generateVideos w userPrompt s = (s', Ret tt) /\
    calls s' = calls s ++ [CallEnhance contents] /\
    statusMessage s' = ("An error occurred: " ++ errorText e)%string /\
    consoleErrors s' =
      consoleErrors s ++ [("Video generation failed: " ++ errorText e)%string] /\
    resultsSection s' = [].
Proof.
  intros Hp He.
  destruct (generateVideos w userPrompt s) as [s' r] eqn:H.
  destruct (pageBeforeBatches_page w userPrompt s)
    as (contents & C0 & R0 & _ & _ & _ & E0 & _).
  destruct (generateVideos_cases w userPrompt s s' r Hp H)
    as [(He' & _) | [(e' & He' & -> & ->) | (ep' & s1 & l & res & He' & _)]];
    try congruence.
  assert (e' = e) by congruence. subst e'.
  eexists; exists contents. split; [reflexivity|]. simpl.
  rewrite C0, E0, R0. repeat split.
Qed.

Lemma enhancement_failure_aborts_witness :
  exists s' contents,
    generateVideos worldNoEnhancement "a cat" usedPage = (s', Ret tt) /\
    calls s' = calls usedPage ++ [CallEnhance contents] /\
    statusMessage s' = "An error occurred: Failed to fetch"%string.
Proof.
  destruct (enhancement_failure_aborts worldNoEnhancement "a cat" usedPage
              networkDown ltac:(discriminate) eq_refl)
    as (s' & contents & G & C & M & _).
  exists s', contents. split; [exact G|]. split; [exact C | exact M].
Defined.

(** X10: the deliveries fetch every accumulated URI once, in the order of
    the results and whatever the time each fetch takes, at the URI followed
    by "&key=" and the API key. *)
Theorem fetches_follow_result_order w uris s :
  calls (deliverAll w uris s) =
    calls s ++ map (fun u => CallFetch (u ++ "&key=" ++ apiKey w)%string) uris /\
  fetched (calls (deliverAll w uris s)) =
    fetched (calls s) ++ map (fun u => (u ++ "&key=" ++ apiKey w)%string) uris.
Proof.
  destruct (deliverAll_frame w uris s) as (_ & _ & _ & C).
  split; [exact C|]. rewrite C, fetched_app. f_equal.
  clear. unfold fetched.
  induction uris as [|u uris IH]; cbn [flat_map map app];
    [reflexivity | now rewrite IH].
Qed.

Lemma one_trace_per_video w order :
  List.length (flat_map (fun i => downloadOf (S i) (fetches w i)) order)
    + List.length (flat_map (fun i => errorLogOf (S i) (fetches w i)) order)
  = List.length order.
Proof.
  induction order as [|i order IH]; simpl; [reflexivity|].
  rewrite !length_app.
  destruct (fetches w i); simpl; lia.
Qed.

(** X11: every accumulated URI ends as exactly one child of the results
    section, and as exactly one of a download or a console error line:
    no video is dropped silently and none is reported twice. *)
Theorem every_video_is_accounted_for w uris s :
  List.length (resultsSection (deliverAll w uris s)) =
    List.length (resultsSection s) + List.length uris /\
  List.length (downloads (deliverAll w uris s))
    + List.length (consoleErrors (deliverAll w uris s)) =
    List.length (downloads s) + List.length (consoleErrors s)
      + List.length uris.
Proof.
  destruct (deliverAll_page w uris s) as (_ & R & E & D). simpl in R, E, D.
  pose proof (Permutation_length (settleOrder_perm (fetchTime w) (List.length uris)))
    as L.
  rewrite length_seq in L.
  pose proof (one_trace_per_video w (settleOrder (fetchTime w) (List.length uris)))
    as T.
  rewrite R, E, D, !length_app, length_map. lia.
Qed.

(** The poll loop reads the status line (line 72) but is not steered by
    it: on two pages it ends the same way after the same calls. *)
Lemma pollLoop_page_blind ps : forall n op i r d s t,
  snd (pollLoop n ps op i r d s) = snd (pollLoop n ps op i r d t) /\
  exists extra,
    calls (fst (pollLoop n ps op i r d s)) = calls s ++ extra /\
    calls (fst (pollLoop n ps op i r d t)) = calls t ++ extra.
Proof.
  assert (Hit : forall n i op d s,
            calls (sleepThenPoll op d (announcePoll n i s)) =
            calls s ++ [CallSleep d; CallPoll op])
    by (intros; apply Extends_iteration).
  induction ps as [|p ps IH]; intros n op i r d s t;
    destruct (done op) eqn:Hd.
  - rewrite !pollLoop_done by assumption. split; [reflexivity|].
    exists []. now rewrite !app_nil_r.
  - rewrite !pollLoop_unanswered by assumption. split; [reflexivity|].
    eexists. simpl fst. rewrite !Hit. split; reflexivity.
  - rewrite !pollLoop_done by assumption. split; [reflexivity|].
    exists []. now rewrite !app_nil_r.
  - destruct p as [op'|e].
    + rewrite !pollLoop_resolved by assumption.
      destruct (IH n op' (S i) 0 basePollDelay
                  (sleepThenPoll op d (announcePoll n i s))
                  (sleepThenPoll op d (announcePoll n i t)))
        as (R & extra & Cs & Ct).
      split; [exact R|].
      exists ([CallSleep d; CallPoll op] ++ extra).
      rewrite Cs, Ct, !Hit, <- !app_assoc. split; reflexivity.
    + rewrite !pollLoop_rejected by assumption.
      destruct (onPollFailure e r d) as [[[r' d'] msg]|e'].
      * destruct (IH n op (S i) r' d'
                    (setStatus msg (sleepThenPoll op d (announcePoll n i s)))
                    (setStatus msg (sleepThenPoll op d (announcePoll n i t))))
          as (R & extra & Cs & Ct).
        split; [exact R|].
        exists ([CallSleep d; CallPoll op] ++ extra).
        rewrite Cs, Ct. cbn [calls setStatus].
        rewrite !Hit, <- !app_assoc. split; reflexivity.
      * split; [reflexivity|]. eexists. simpl fst. rewrite !Hit.
        split; reflexivity.
Qed.

Lemma runBatch_page_blind total maxPerBatch prompt l script s t :
  snd (runBatch total maxPerBatch prompt l script s) =
  snd (runBatch total maxPerBatch prompt l script t) /\
  exists extra,
    calls (fst (runBatch total maxPerBatch prompt l script s)) = calls s ++ extra /\
    calls (fst (runBatch total maxPerBatch prompt l script t)) = calls t ++ extra.
Proof.
  assert (Hsub : forall s,
            calls (submitBatch total maxPerBatch prompt l s) =
            calls s ++ [CallSubmit prompt
                          (videosInThisBatch total maxPerBatch (videosGenerated l))])
    by (intros; apply Extends_submitBatch).
  unfold runBatch. destruct script as [b|].
  - destruct (submission b) as [op|e].
    + destruct (pollLoop_page_blind (polls b) (batchNumber l) op 0 0 basePollDelay
                  (submitBatch total maxPerBatch prompt l s)
                  (submitBatch total maxPerBatch prompt l t))
        as (R & extra & Cs & Ct).
      destruct (pollLoop _ _ _ _ _ _ (submitBatch total maxPerBatch prompt l s))
        as [s1 r1].
      destruct (pollLoop _ _ _ _ _ _ (submitBatch total maxPerBatch prompt l t))
        as [t1 r2].
      simpl in R, Cs, Ct. subst r2.
      assert (Hfst : forall (A : Type) (p x : Page) (k : Operation -> Res A),
                 calls (fst (match r1 with
                             | Ret o => (p, k o)
                             | Threw e => (p, Threw e)
                             | Pending => (p, Pending)
                             end)) = calls p)
        by (intros; destruct r1; reflexivity).
      split.
      * destruct r1; reflexivity.
      * exists (CallSubmit prompt
                  (videosInThisBatch total maxPerBatch (videosGenerated l)) :: extra).
        rewrite !(Hfst _ _ s), Cs, Ct, ?Hsub, <- ?app_assoc. split; reflexivity.
    + split; [reflexivity|]. eexists. simpl fst. rewrite !Hsub. split; reflexivity.
  - split; [reflexivity|]. eexists. simpl fst. rewrite !Hsub. split; reflexivity.
Qed.

(** X12: what the page shows never steers the batches.  Started on two
    different pages, the batch loop ends the same way, with the same
    accumulated results and counters, after making the same calls. *)
Theorem page_does_not_steer total maxPerBatch prompt scripts : forall l s t,
  snd (batchLoop total maxPerBatch prompt scripts l s) =
    snd (batchLoop total maxPerBatch prompt scripts l t) /\
  snd (fst (batchLoop total maxPerBatch prompt scripts l s)) =
    snd (fst (batchLoop total maxPerBatch prompt scripts l t)) /\
  exists extra,
    calls (fst (fst (batchLoop total maxPerBatch prompt scripts l s))) =
      calls s ++ extra /\
    calls (fst (fst (batchLoop total maxPerBatch prompt scripts l t))) =
      calls t ++ extra.
Proof.
  induction scripts as [|b scripts IH]; intros l s t.
  - rewrite !batchLoop_nil. destruct (videosGenerated l <? total)%nat; simpl.
    + repeat split. eexists. split; reflexivity.
    + repeat split. exists []. now rewrite !app_nil_r.
  - rewrite !batchLoop_cons. destruct (videosGenerated l <? total)%nat.
    + destruct (runBatch_page_blind total maxPerBatch prompt l (Some b) s t)
        as (R & extra & Cs & Ct).
      destruct (runBatch total maxPerBatch prompt l (Some b) s) as [s1 r1].
      destruct (runBatch total maxPerBatch prompt l (Some b) t) as [t1 r2].
      simpl in R, Cs, Ct. subst r2.
      destruct r1 as [uris|e|].
      * destruct (IH (pushBatch l uris) s1 t1) as (R' & L' & extra' & Cs' & Ct').
        split; [exact R'|]. split; [exact L'|].
        exists (extra ++ extra').
        rewrite Cs', Ct', Cs, Ct, <- !app_assoc. split; reflexivity.
      * simpl. repeat split. now exists extra.
      * simpl. repeat split. now exists extra.
    + simpl. repeat split. exists []. now rewrite !app_nil_r.
Qed.

Lemma sized_count total maxPerBatch : forall jobs produced,
  0 < maxPerBatch ->
  sizedFrom total maxPerBatch produced jobs ->
  Forall (fun j => List.length (delivered j) = requestedCount j) jobs ->
  total <= produced + List.length (flat_map delivered jobs) ->
  List.length jobs = (total - produced + maxPerBatch - 1) / maxPerBatch.
Proof.
  induction jobs as [|j jobs IH]; intros produced Hm Hs Hex Hge; simpl in *.
  - symmetry. apply Nat.div_small. lia.
  - destruct Hs as (Hlt & Hreq & Hs).
    inversion Hex as [|? ? Hj Hex']; subst.
    rewrite length_app in Hge.
    destruct (Nat.le_gt_cases (total - produced) maxPerBatch) as [Hle|Hgt].
    + assert (Hnext : produced + List.length (delivered j) = total) by lia.
      destruct jobs as [|j2 jobs].
      * simpl.
        apply (Nat.div_unique _ _ 1 (total - produced - 1)); lia.
      * destruct Hs as (Hlt2 & _). lia.
    + rewrite (IH (produced + List.length (delivered j))); try assumption; [|lia].
      replace (total - produced + maxPerBatch - 1)
        with ((total - produced - 1) + 1 * maxPerBatch) by lia.
      rewrite Nat.div_add by lia.
      replace (total - (produced + List.length (delivered j)) + maxPerBatch - 1)
        with (total - produced - 1) by lia.
      lia.
Qed.

(** X13: when every batch delivers exactly what it was asked for, a
    successful run takes [ceil(total / maxPerBatch)] batches, the number the
    status line announces ("Batch k of N"). *)
Theorem batch_count_is_ceiling total maxPerBatch prompt scripts s s' l' :
  0 < maxPerBatch ->
  batchLoop total maxPerBatch prompt scripts initialLocals s = (s', l', Ret tt) ->
  exists jobs,
    History total maxPerBatch prompt scripts initialLocals s jobs l' s' /\
    (Forall (fun j => List.length (delivered j) = requestedCount j) jobs ->
     List.length jobs = batchTotal total maxPerBatch /\
     batchNumber l' = S (batchTotal total maxPerBatch)).
Proof.
  intros Hm H. apply batchLoop_history in H.
  destruct H as (jobs & s0 & Hh & -> & Hge).
  exists jobs. split; [exact Hh|]. intros Hex.
  pose proof (History_sized _ _ _ _ _ _ _ _ _ Hh) as Hs.
  destruct (History_locals _ _ _ _ _ _ _ _ _ Hh) as (_ & G & N).
  simpl in Hs, G, N.
  pose proof (sized_count total maxPerBatch jobs 0 Hm Hs Hex ltac:(lia)) as L.
  rewrite Nat.sub_0_r in L. unfold batchTotal. rewrite N, L. split; reflexivity.
Qed.

Lemma batch_count_is_ceiling_witness :
  exists s' l',
    batchLoop 5 2 "P" scriptsExact initialLocals emptyPage = (s', l', Ret tt) /\
    batchTotal 5 2 = 3 /\
    batchNumber l' = 4.
Proof.
  eexists; eexists.
  destruct (batch_count_is_ceiling 5 2 "P" scriptsExact emptyPage _ _
              ltac:(lia) eq_refl) as (jobs & _ & _).
  split; [reflexivity|]. split; reflexivity.
Defined.

(** X15: a batch that is done with entries but without a usable URI makes
    no progress and is not an error: the loop submits the same request
    again under the next batch number, and goes on doing so for as long as
    the service answers that way; it has no limit on the number of
    batches. *)
Theorem batches_without_uris_are_resubmitted n :
  forall total maxPerBatch prompt op vs l s,
  videosGenerated l < total ->
  done op = true ->
  responseVideos op = Some vs -> vs <> [] -> batchVideoUris vs = [] ->
  exists s' l',
    batchLoop total maxPerBatch prompt (repeat (answeredAtOnce op) n) l s =
      (s', l', Pending) /\
    allVideoUris l' = allVideoUris l /\
    videosGenerated l' = videosGenerated l /\
    batchNumber l' = n + batchNumber l /\
    requestedCounts (calls s') =
      requestedCounts (calls s)
        ++ repeat (videosInThisBatch total maxPerBatch (videosGenerated l)) (S n).
Proof.
  induction n as [|n IH]; intros total maxPerBatch prompt op vs l s Hlt Hd Hv Hne Hu.
  - simpl repeat. rewrite batchLoop_nil.
    apply Nat.ltb_lt in Hlt. rewrite Hlt.
    eexists; eexists. split; [reflexivity|]. repeat split.
    destruct (Extends_submitBatch total maxPerBatch prompt l s) as [C _].
    now rewrite C, requestedCounts_app.
  - cbn [repeat]. rewrite batchLoop_cons.
    pose proof Hlt as Hlt'. apply Nat.ltb_lt in Hlt'. rewrite Hlt'.
    assert (Hrun : runBatch total maxPerBatch prompt l (Some (answeredAtOnce op)) s =
                   (submitBatch total maxPerBatch prompt l s, Ret [])).
    { unfold runBatch. cbn [submission answeredAtOnce polls].
      rewrite pollLoop_done by assumption. unfold collectBatch. rewrite Hv.
      destruct vs as [|v vs]; [congruence|]. now rewrite Hu. }
    rewrite Hrun.
    destruct (IH total maxPerBatch prompt op vs (pushBatch l [])
                (submitBatch total maxPerBatch prompt l s))
      as (s' & l' & E & A & G & N & R);
      try assumption; [simpl; lia|].
    exists s', l'. split; [exact E|].
    cbn [allVideoUris videosGenerated batchNumber pushBatch List.length]
      in A, G, N, R.
    rewrite app_nil_r in A. rewrite Nat.add_0_r in G, R.
    split; [exact A|]. split; [exact G|]. split; [lia|].
    destruct (Extends_submitBatch total maxPerBatch prompt l s) as [C _].
    rewrite R, C, requestedCounts_app, <- app_assoc. reflexivity.
Qed.

Lemma batches_without_uris_are_resubmitted_witness :
  exists s' l',
    batchLoop 5 2 "P" (repeat (answeredAtOnce (finished [None])) 3)
              initialLocals emptyPage = (s', l', Pending) /\
    allVideoUris l' = [] /\
    batchNumber l' = 4 /\
    requestedCounts (calls s') = [2; 2; 2; 2].
Proof.
  destruct (batches_without_uris_are_resubmitted 3 5 2 "P" (finished [None])
              [{| video := Some {| uri := None |} |}] initialLocals emptyPage)
    as (s' & l' & E & A & _ & N & R).
  - vm_compute; lia.
  - reflexivity.
  - reflexivity.
  - discriminate.
  - reflexivity.
  - exists s', l'. split; [exact E|]. split; [exact A|]. split; [exact N | exact R].
Defined.

(** X14: while the budget lasts, a failed poll is retried exactly when the
    thrown value is an [Error] whose message contains "429" or
    "RESOURCE_EXHAUSTED"; any other thrown value, and any thrown value that
    is not an [Error] whatever its text, ends the loop at once. *)
Theorem retried_iff_rate_limit_message n e ps op i r d s :
  done op = false ->
  r < maxPollRetries ->
  (RateLimit e /\
   pollLoop n (Rejected e :: ps) op i r d s =
   pollLoop n ps op (S i) (S r) (Z.min maxPollDelay (d * 2))
     (setStatus ("Rate limit reached. Waiting "
                   ++ showZ (Z.min maxPollDelay (d * 2) / 1000)
                   ++ "s before retrying...")%string
        (sleepThenPoll op d (announcePoll n i s))))
  \/
  (~ RateLimit e /\
   pollLoop n (Rejected e :: ps) op i r d s =
   (sleepThenPoll op d (announcePoll n i s),
    Threw (ErrorObj ("Polling failed after " ++ showNat r ++ " retries: "
                       ++ errorText e)%string))).
Proof.
  intros Hd Hr. rewrite pollLoop_rejected by assumption.
  destruct (isRateLimitError e) eqn:He.
  - left. split; [now apply isRateLimitError_spec|].
    now rewrite onPollFailure_retry by assumption.
  - right. split.
    + intros H. apply isRateLimitError_spec in H. congruence.
    + now rewrite onPollFailure_fatal by (left; assumption).
Qed.

Lemma retried_iff_rate_limit_message_witness :
  ~ RateLimit (OtherThrown "429 Too Many Requests") /\
  pollLoop 1 [Rejected (OtherThrown "429 Too Many Requests")]
           running 0 0 basePollDelay emptyPage =
  (sleepThenPoll running basePollDelay (announcePoll 1 0 emptyPage),
   Threw (ErrorObj "Polling failed after 0 retries: 429 Too Many Requests")).
Proof.
  destruct (retried_iff_rate_limit_message 1
              (OtherThrown "429 Too Many Requests") [] running 0 0
              basePollDelay emptyPage eq_refl ltac:(vm_compute; lia))
    as [[H _]|H].
  - destruct H as (m & pre & post & Hm & _). discriminate.
  - exact H.
Defined.
